(** * The string primitives of the Hermes VM (lib/VM/StringPrimitive.cpp)

    A shallow embedding of [StringPrimitive.cpp]: the construction dispatch
    of [StringPrimitive::createEfficient], the comparator entry points,
    [concat], [slice], the dynamic (inline) and external storage variants
    with their allocation paths, the finalizer of external strings and the
    metadata callbacks handed to the collector.

    The runtime is modelled by explicit state passing: a heap of string
    cells indexed by address, a bump allocation pointer, the ledger of
    external memory, the predefined strings and the pending exception.
    Handles are addresses: the model does not move cells. *)

From Stdlib Require Import NArith ZArith List Lia Bool String.
From stdpp Require Import base option list gmap strings.

Local Open Scope N_scope.

(** ** Constants of the header

    [StringPrimitive.h] declares the limits the code below compares
    against.  They are taken as parameters of the development. *)

Class StringLimits := {
  (** the longest string that may be allocated *)
  MAX_STRING_LENGTH : N;
  (** from this length on, an owned buffer is adopted rather than copied *)
  EXTERNAL_STRING_MIN_SIZE : N;
  (** the predicate of the header deciding that a length is stored
      externally *)
  isExternalLength : N -> bool
}.

(** ** Machine integers *)

Definition UINT32_MAX : N := 4294967295.

(** Conversion to [uint32_t]. *)
Definition toUInt32 (n : N) : N := n mod 4294967296.

(** ** Data model *)

(** A code unit.  [char] holds ASCII (0..127) by the assertions of the
    code, [char16_t] holds 0..65535; widening a [char] to a [char16_t]
    keeps its numeric value, so both are carried by [N]. *)
Definition CodeUnit := N.

(** The template parameter [T] of the storage classes. *)
Inductive CharT := char | char16_t.

#[global] Instance CharT_eq_dec : EqDecision CharT.
Proof. solve_decision. Defined.

Definition sizeofT (T : CharT) : N :=
  match T with char => 1 | char16_t => 2 end.

(** [std::is_same<T, char>::value] *)
Definition charIs8Bit (T : CharT) : bool :=
  match T with char => true | char16_t => false end.

(** Modelled from the spec: the cell kinds are declared in the headers of
    the collector.  One kind per concrete variant: inline storage in the
    four flavours narrow or wide, plain or uniqued, and external storage
    narrow or wide.  They carry the names of the metadata callbacks of
    lines 19-57. *)
Inductive CellKind :=
| DynamicASCIIStringPrimitiveKind
| DynamicUTF16StringPrimitiveKind
| DynamicUniquedASCIIStringPrimitiveKind
| DynamicUniquedUTF16StringPrimitiveKind
| ExternalASCIIStringPrimitiveKind
| ExternalUTF16StringPrimitiveKind.

#[global] Instance CellKind_eq_dec : EqDecision CellKind.
Proof. solve_decision. Defined.

Definition DynamicKind (T : CharT) (Uniqued : bool) : CellKind :=
  match T, Uniqued with
  | char, false => DynamicASCIIStringPrimitiveKind
  | char16_t, false => DynamicUTF16StringPrimitiveKind
  | char, true => DynamicUniquedASCIIStringPrimitiveKind
  | char16_t, true => DynamicUniquedUTF16StringPrimitiveKind
  end.

Definition ExternalKind (T : CharT) : CellKind :=
  match T with
  | char => ExternalASCIIStringPrimitiveKind
  | char16_t => ExternalUTF16StringPrimitiveKind
  end.

Definition kindIsASCII (k : CellKind) : bool :=
  match k with
  | DynamicASCIIStringPrimitiveKind
  | DynamicUniquedASCIIStringPrimitiveKind
  | ExternalASCIIStringPrimitiveKind => true
  | _ => false
  end.

Definition kindIsExternal (k : CellKind) : bool :=
  match k with
  | ExternalASCIIStringPrimitiveKind
  | ExternalUTF16StringPrimitiveKind => true
  | _ => false
  end.

Definition SymbolID := N.
Definition Addr := N.

(** Modelled from the spec: the string classes are declared in
    [StringPrimitive.h].  A string cell: the header fields and the
    character data (trailing the header for the dynamic variants, a
    [std::basic_string] owned by the cell for the external ones). *)
Record StringPrimitive := mkStringPrimitive {
  cellKind : CellKind;
  (** allocated by [allocLongLived] *)
  longLived : bool;
  (** allocated with [HasFinalizer::Yes] *)
  hasFinalizer : bool;
  (** the uniqued flag of the header *)
  uniqued : bool;
  uniqueID_ : option SymbolID;
  contents : list CodeUnit
}.

(** Modelled from the spec: the accessor [isASCII] of the header, the
    encoding of a string (narrow when true). *)
Definition isASCII (s : StringPrimitive) : bool := kindIsASCII (cellKind s).

(** Modelled from the spec: the accessor [isExternal] of the header, the
    storage of a string. *)
Definition isExternal (s : StringPrimitive) : bool :=
  kindIsExternal (cellKind s).

(** Modelled from the spec: the accessor [isUniqued] of the header. *)
Definition isUniqued (s : StringPrimitive) : bool := uniqued s.

(** Modelled from the spec: the accessor [getStringLength] of the header,
    the character count of a string. *)
Definition getStringLength (s : StringPrimitive) : N :=
  N.of_nat (length (contents s)).

Definition setContents (s : StringPrimitive) (cs : list CodeUnit)
  : StringPrimitive :=
  {| cellKind := cellKind s; longLived := longLived s;
     hasFinalizer := hasFinalizer s; uniqued := uniqued s;
     uniqueID_ := uniqueID_ s; contents := cs |}.

(** Modelled from the spec: [SymbolStringPrimitive::updateUniqueID] of the
    header, which sets the identifier of a uniqued string at
    construction. *)
Definition updateUniqueID (s : StringPrimitive) (id : SymbolID)
  : StringPrimitive :=
  {| cellKind := cellKind s; longLived := longLived s;
     hasFinalizer := hasFinalizer s; uniqued := uniqued s;
     uniqueID_ := Some id; contents := contents s |}.

(** Modelled from the spec: [HermesValue], the tagged value of the engine,
    restricted to the string values this file encodes. *)
Inductive HermesValue := encodeStringValue (p : Addr).

Definition getString (v : HermesValue) : Addr :=
  match v with encodeStringValue p => p end.

(** ** The runtime *)

(** Modelled from the spec: the errors of this layer are a single
    range-error category with a descriptive text. *)
Inductive JSError := RangeError (message : string).

(** Modelled from the spec: [Runtime] and its heap are collaborators
    declared elsewhere.  The state this file reads and writes. *)
Record Runtime := mkRuntime {
  (** the live cells of the heap *)
  cells : gmap N StringPrimitive;
  (** allocation pointer: the next address handed out *)
  level : Addr;
  (** the ledger of external memory: bytes credited and bytes debited *)
  externalCredited : N;
  externalDebited : N;
  (** the admission check of the heap for external memory *)
  heapCanAllocExternalMemory : N -> bool;
  (** [Predefined::emptyString] *)
  emptyString : Addr;
  (** the cache of single-character strings *)
  charStrings : CodeUnit -> Addr;
  (** the exception raised last, if any *)
  thrownValue : option JSError
}.

Definition setCells (rt : Runtime) (h : gmap N StringPrimitive) : Runtime :=
  {| cells := h; level := level rt;
     externalCredited := externalCredited rt;
     externalDebited := externalDebited rt;
     heapCanAllocExternalMemory := heapCanAllocExternalMemory rt;
     emptyString := emptyString rt; charStrings := charStrings rt;
     thrownValue := thrownValue rt |}.

Definition setLevel (rt : Runtime) (l : Addr) : Runtime :=
  {| cells := cells rt; level := l;
     externalCredited := externalCredited rt;
     externalDebited := externalDebited rt;
     heapCanAllocExternalMemory := heapCanAllocExternalMemory rt;
     emptyString := emptyString rt; charStrings := charStrings rt;
     thrownValue := thrownValue rt |}.

Definition setLedger (rt : Runtime) (c d : N) : Runtime :=
  {| cells := cells rt; level := level rt;
     externalCredited := c; externalDebited := d;
     heapCanAllocExternalMemory := heapCanAllocExternalMemory rt;
     emptyString := emptyString rt; charStrings := charStrings rt;
     thrownValue := thrownValue rt |}.

Definition setThrownValue (rt : Runtime) (e : JSError) : Runtime :=
  {| cells := cells rt; level := level rt;
     externalCredited := externalCredited rt;
     externalDebited := externalDebited rt;
     heapCanAllocExternalMemory := heapCanAllocExternalMemory rt;
     emptyString := emptyString rt; charStrings := charStrings rt;
     thrownValue := Some e |}.

(** Modelled from the spec: [CallResult<T>], the discriminated result of
    the engine: a value, or [ExecutionStatus::EXCEPTION] with the error
    left in the runtime. *)
Inductive CallResult (A : Type) :=
| Returned (a : A)
| EXCEPTION.
Arguments Returned {A} a.
Arguments EXCEPTION {A}.

(** A computation of the VM: from a runtime to a result and the runtime
    after it.  [None] is undefined behaviour: a violated assertion, a
    dangling handle, an access out of bounds. *)
Definition VM (A : Type) : Type := Runtime -> option (CallResult A * Runtime).

Definition ret {A} (a : A) : VM A := fun rt => Some (Returned a, rt).

Definition bind {A B} (m : VM A) (f : A -> VM B) : VM B :=
  fun rt =>
    match m rt with
    | None => None
    | Some (EXCEPTION, rt') => Some (EXCEPTION, rt')
    | Some (Returned a, rt') => f a rt'
    end.

Declare Scope vm_scope.
Delimit Scope vm_scope with vm.
Notation "x <- m ;; k" := (bind m (fun x => k))
  (at level 100, m at next level, right associativity) : vm_scope.
Notation "m ;;; k" := (bind m (fun _ => k))
  (at level 100, right associativity) : vm_scope.
Local Open Scope vm_scope.

(** [assert(b)] *)
Definition assert (b : bool) : VM unit :=
  fun rt => if b then Some (Returned tt, rt) else None.

(** Modelled from the spec: [Runtime::raiseRangeError] is not in this
    file.  Failures are a single range-error category with a descriptive
    text, returned as the failure side of the discriminated result; the
    error is left in the runtime, nothing else changes. *)
Definition raiseRangeError {A} (msg : string) : VM A :=
  fun rt => Some (EXCEPTION, setThrownValue rt (RangeError msg)).

(** Raw memory returned by the allocator, before an object is constructed
    in it. *)
Record Mem := mkMem {
  memAddr : Addr;
  memLongLived : bool;
  memHasFinalizer : bool
}.

(** Modelled from the spec: the allocator is the collector's.
    [alloc(size, fixedSize, hasFinalizer) -> memory]: raw object
    allocation in the default pool, with optional finalizer registration.
    The model hands out the next address; sizes are not tracked. *)
Definition alloc (hasFin : bool) : VM Mem :=
  fun rt =>
    Some (Returned (mkMem (level rt) false hasFin),
          setLevel rt (level rt + 1)).

(** Modelled from the spec: [allocLongLived], the same in the long-lived
    pool. *)
Definition allocLongLived (hasFin : bool) : VM Mem :=
  fun rt =>
    Some (Returned (mkMem (level rt) true hasFin),
          setLevel rt (level rt + 1)).

(** [new (mem) C(...)]: the object built by the constructor is placed in
    the allocated memory. *)
Definition placementNew (mem : Mem) (mk : bool -> bool -> StringPrimitive)
  : VM Addr :=
  fun rt =>
    Some (Returned (memAddr mem),
          setCells rt
            (<[memAddr mem := mk (memLongLived mem) (memHasFinalizer mem)]>
               (cells rt))).

(** Dereference of a handle or pointer to a string. *)
Definition deref (p : Addr) : VM StringPrimitive :=
  fun rt =>
    match cells rt !! p with
    | Some s => Some (Returned s, rt)
    | None => None
    end.

(** Modelled from the spec: [creditExternalMemory(object, bytes)] and
    [debitExternalMemory(object, bytes)], the off-heap accounting of the
    collector. *)
Definition creditExternalMemory (p : Addr) (size : N) : VM unit :=
  fun rt =>
    Some (Returned tt,
          setLedger rt (externalCredited rt + size) (externalDebited rt)).

Definition debitExternalMemory (p : Addr) (size : N) : VM unit :=
  fun rt =>
    Some (Returned tt,
          setLedger rt (externalCredited rt) (externalDebited rt + size)).

(** Modelled from the spec: [canAllocExternalMemory(bytes) -> bool], the
    admission check before an external allocation. *)
Definition canAllocExternalMemory (size : N) : VM bool :=
  fun rt => Some (Returned (heapCanAllocExternalMemory rt size), rt).

(** Modelled from the spec: [Runtime::getPredefinedString] for
    [Predefined::emptyString], the process-wide empty string. *)
Definition getPredefinedEmptyString : VM Addr :=
  fun rt => Some (Returned (emptyString rt), rt).

(** Modelled from the spec: [Runtime::getCharacterString].  Strings of
    length one are served from a cache with one entry per character value
    and are never freshly allocated. *)
Definition getCharacterString (c : CodeUnit) : VM Addr :=
  fun rt => Some (Returned (charStrings rt c), rt).

(** ** Metadata callbacks (lines 19-57) *)

Module Metadata.
(** Modelled from the spec: [Metadata::Builder] is declared in
    [BuildMetadata.h].  A callback tells the collector which fields of the
    header of a variant are traced references; the builder holds the
    fields declared so far, by name. *)
Definition Builder := list string.

(** Modelled from the spec: [mb.addField(name, &field)] declares one more
    traced field. *)
Definition addField (name : string) (mb : Builder) : Builder :=
  mb ++ [name].
End Metadata.

(** Has nothing to do, just here to stop linker errors. *)
Definition DynamicASCIIStringPrimitiveBuildMeta
  (cell : StringPrimitive) (mb : Metadata.Builder) : Metadata.Builder := mb.

Definition DynamicUTF16StringPrimitiveBuildMeta
  (cell : StringPrimitive) (mb : Metadata.Builder) : Metadata.Builder := mb.

Definition symbolStringPrimitiveBuildMeta
  (cell : StringPrimitive) (mb : Metadata.Builder) : Metadata.Builder :=
  Metadata.addField "uniqueID" mb.

Definition DynamicUniquedASCIIStringPrimitiveBuildMeta
  (cell : StringPrimitive) (mb : Metadata.Builder) : Metadata.Builder :=
  symbolStringPrimitiveBuildMeta cell mb.

Definition DynamicUniquedUTF16StringPrimitiveBuildMeta
  (cell : StringPrimitive) (mb : Metadata.Builder) : Metadata.Builder :=
  symbolStringPrimitiveBuildMeta cell mb.

Definition ExternalASCIIStringPrimitiveBuildMeta
  (cell : StringPrimitive) (mb : Metadata.Builder) : Metadata.Builder :=
  symbolStringPrimitiveBuildMeta cell mb.

Definition ExternalUTF16StringPrimitiveBuildMeta
  (cell : StringPrimitive) (mb : Metadata.Builder) : Metadata.Builder :=
  symbolStringPrimitiveBuildMeta cell mb.

(** The callback of each variant, as the collector looks it up by cell
    kind. *)
Definition buildMeta (k : CellKind)
  : StringPrimitive -> Metadata.Builder -> Metadata.Builder :=
  match k with
  | DynamicASCIIStringPrimitiveKind => DynamicASCIIStringPrimitiveBuildMeta
  | DynamicUTF16StringPrimitiveKind => DynamicUTF16StringPrimitiveBuildMeta
  | DynamicUniquedASCIIStringPrimitiveKind =>
      DynamicUniquedASCIIStringPrimitiveBuildMeta
  | DynamicUniquedUTF16StringPrimitiveKind =>
      DynamicUniquedUTF16StringPrimitiveBuildMeta
  | ExternalASCIIStringPrimitiveKind => ExternalASCIIStringPrimitiveBuildMeta
  | ExternalUTF16StringPrimitiveKind => ExternalUTF16StringPrimitiveBuildMeta
  end.

(** The fields a variant declares to a fresh builder. *)
Definition tracedFields (k : CellKind) (cell : StringPrimitive)
  : list string :=
  buildMeta k cell [].

(** ** Helpers on character spans *)

(** Modelled from the spec: [isAllASCII] lives in [Support/UTF8.h].  A
    span is all ASCII when every code unit lies in the 7-bit range. *)
Definition isAllASCII (str : list CodeUnit) : bool :=
  forallb (fun c => c <? 128) str.

(** [ArrayRef::size()] *)
Definition size (str : list CodeUnit) : N := N.of_nat (length str).

(** The window [ptr + start, ptr + start + length) of a span; reading
    outside the span is undefined. *)
Definition window (start len : N) (str : list CodeUnit)
  : option (list CodeUnit) :=
  if start + len <=? size str
  then Some (take (N.to_nat len) (drop (N.to_nat start) str))
  else None.

(** [std::copy(src.begin(), src.end(), dst + off)]: [dst] with the units
    of [src] written from offset [off] on; writing past the end is
    undefined. *)
Definition copyInto (dst : list CodeUnit) (off : N) (src : list CodeUnit)
  : option (list CodeUnit) :=
  if off + size src <=? size dst
  then Some (take (N.to_nat off) dst ++ src
             ++ drop (N.to_nat off + length src) dst)
  else None.

(** Modelled from the spec: the scan of [stringRefEquals] over two spans
    of equal length, narrow units widened to their numeric value. *)
Fixpoint unitsEqual (a b : list CodeUnit) : bool :=
  match a, b with
  | [], [] => true
  | x :: a', y :: b' => (x =? y) && unitsEqual a' b'
  | _, _ => false
  end.

(** Modelled from the spec: [stringRefEquals] lives in a header that is
    not in this file.  Equality over two spans of either encoding; a
    length mismatch decides before the content is scanned. *)
Definition stringRefEquals (a b : list CodeUnit) : bool :=
  if size a =? size b then unitsEqual a b else false.

(** Modelled from the spec: [stringRefCompare] lives in the same header.
    A signed three-way result, lexicographic over code-unit values. *)
Fixpoint stringRefCompare (a b : list CodeUnit) : Z :=
  match a, b with
  | [], [] => 0%Z
  | [], _ :: _ => (-1)%Z
  | _ :: _, [] => 1%Z
  | x :: a', y :: b' =>
      if x <? y then (-1)%Z
      else if y <? x then 1%Z
      else stringRefCompare a' b'
  end.

(** Modelled from the spec: [SafeUInt32], the overflow-checked
    accumulator of [Support/SafeUInt32.h]. *)
Module SafeUInt32.
(** Modelled from the spec: the accumulator holds the exact sum. *)
Record t := make { value : N }.

(** Modelled from the spec: [add], accumulating one more length. *)
Definition add (x : t) (n : N) : t := make (value x + n).

(** Modelled from the spec: [isOverflowed], the sum no longer fits
    [uint32_t]. *)
Definition isOverflowed (x : t) : bool := UINT32_MAX <? value x.

(** Modelled from the spec: [operator*], the value of an accumulator that
    has not overflowed. *)
Definition get (x : t) : VM N :=
  assert (negb (isOverflowed x)) ;;; ret (value x).
End SafeUInt32.

(** Write [src] into the character data of the string at [p], from offset
    [off] on. *)
Definition writeChars (p : Addr) (off : N) (src : list CodeUnit) : VM unit :=
  fun rt =>
    match cells rt !! p with
    | Some s =>
        match copyInto (contents s) off src with
        | Some cs =>
            Some (Returned tt,
                  setCells rt (<[p := setContents s cs]> (cells rt)))
        | None => None
        end
    | None => None
    end.

(** ** Dynamic (inline) storage (lines 264-306) *)

Module DynamicStringPrimitive.
Section WithLimits.
Context `{StringLimits}.

(** Modelled from the spec: the constructor taking a length is defined in
    the header.  It sets the kind and the length of a cell whose
    character data trails the header; the data is not initialised by the
    constructor, the model fills it with zeros. *)
Definition newOfLength (T : CharT) (Uniqued : bool) (length : N)
    (inLongLived hasFin : bool) : StringPrimitive :=
  {| cellKind := DynamicKind T Uniqued; longLived := inLongLived;
     hasFinalizer := hasFin; uniqued := Uniqued; uniqueID_ := None;
     contents := repeat 0 (N.to_nat length) |}.

(** The constructor taking a span (lines 264-271): it delegates to the
    one above with [(uint32_t)src.size()] and copies [src] into the
    trailing data. *)
Definition newOfRef (T : CharT) (Uniqued : bool) (src : list CodeUnit)
    (inLongLived hasFin : bool) : option StringPrimitive :=
  let self := newOfLength T Uniqued (toUInt32 (size src)) inLongLived hasFin in
  match copyInto (contents self) 0 src with
  | Some cs => Some (setContents self cs)
  | None => None
  end.

(** Placement of an object whose construction may be undefined. *)
Definition placementNewOpt (mem : Mem)
    (mk : bool -> bool -> option StringPrimitive) : VM Addr :=
  fun rt =>
    match mk (memLongLived mem) (memHasFinalizer mem) with
    | Some s =>
        Some (Returned (memAddr mem),
              setCells rt (<[memAddr mem := s]> (cells rt)))
    | None => None
    end.

(** [create(Runtime *, Ref str)] (lines 273-282) *)
Definition createOfRef (T : CharT) (Uniqued : bool) (str : list CodeUnit)
  : VM HermesValue :=
  assert (negb (isExternalLength (size str))) ;;;
  mem <- alloc false ;;
  p <- placementNewOpt mem (newOfRef T Uniqued str) ;;
  ret (encodeStringValue p).

(** [createLongLived(Runtime *, Ref str)] (lines 284-292) *)
Definition createLongLived (T : CharT) (Uniqued : bool)
    (str : list CodeUnit) : VM HermesValue :=
  assert (negb (isExternalLength (size str))) ;;;
  mem <- allocLongLived false ;;
  p <- placementNewOpt mem (newOfRef T Uniqued str) ;;
  ret (encodeStringValue p).

(** [create(Runtime *, uint32_t length)] (lines 294-301) *)
Definition createOfLength (T : CharT) (Uniqued : bool) (length : N)
  : VM HermesValue :=
  mem <- alloc false ;;
  p <- placementNew mem (newOfLength T Uniqued length) ;;
  ret (encodeStringValue p).
End WithLimits.
End DynamicStringPrimitive.

(** ** External storage (lines 308-393) *)

Module ExternalStringPrimitive.
Section WithLimits.
Context `{StringLimits}.

(** Modelled from the spec: the three-argument constructor is defined in
    the header.  It move-transfers the buffer into a cell of the
    external kind of [T] and records the uniqued flag. *)
Definition newWithFlag (T : CharT) (contents : list CodeUnit)
    (isUniq : bool) (inLongLived hasFin : bool) : StringPrimitive :=
  {| cellKind := ExternalKind T; longLived := inLongLived;
     hasFinalizer := hasFin; uniqued := isUniq; uniqueID_ := None;
     contents := contents |}.

(** The constructor of a plain external string (lines 308-315). *)
Definition new (T : CharT) (contents : list CodeUnit)
    (inLongLived hasFin : bool) : StringPrimitive :=
  newWithFlag T contents false inLongLived hasFin.

(** The constructor of a uniqued external string (lines 317-327). *)
Definition newUniqued (T : CharT) (contents : list CodeUnit)
    (uniqueID : SymbolID) (inLongLived hasFin : bool) : StringPrimitive :=
  updateUniqueID (newWithFlag T contents true inLongLived hasFin) uniqueID.

(** Modelled from the spec: [getStringByteSize] is defined in the
    header.  The byte size of the buffer, its length times the size of a
    code unit, read from the buffer (not from a cached field). *)
Definition getStringByteSize (T : CharT) (self : StringPrimitive) : N :=
  size (contents self) * sizeofT T.

(** [uint32_t allocSize = str.size() * sizeof(T);] *)
Definition allocSize (T : CharT) (n : N) : N := toUInt32 (n * sizeofT T).

(** [create(Runtime *, StdString &&str)] (lines 329-342) *)
Definition create (T : CharT) (str : list CodeUnit) : VM HermesValue :=
  if MAX_STRING_LENGTH <? size str
  then raiseRangeError "String length exceeds limit"
  else
    let allocSize := allocSize T (size str) in
    mem <- alloc true ;;
    p <- placementNew mem (new T str) ;;
    let res := encodeStringValue p in
    creditExternalMemory (getString res) allocSize ;;;
    ret res.

(** [createLongLived(Runtime *, StdString &&str, SymbolID uniqueID)]
    (lines 344-362) *)
Definition createLongLived (T : CharT) (str : list CodeUnit)
    (uniqueID : SymbolID) : VM HermesValue :=
  if MAX_STRING_LENGTH <? size str
  then raiseRangeError "String length exceeds limit"
  else
    let allocSize := allocSize T (size str) in
    ok <- canAllocExternalMemory allocSize ;;
    if negb ok
    then raiseRangeError "Cannot allocate an external string primitive."
    else
      mem <- allocLongLived true ;;
      p <- placementNew mem (newUniqued T str uniqueID) ;;
      let res := encodeStringValue p in
      creditExternalMemory (getString res) allocSize ;;;
      ret res.

(** [create(Runtime *, uint32_t length)] (lines 364-377) *)
Definition createOfLength (T : CharT) (length : N) : VM HermesValue :=
  assert (isExternalLength length) ;;;
  if MAX_STRING_LENGTH <? length
  then raiseRangeError "String length exceeds limit"
  else
    let allocSize := allocSize T length in
    ok <- canAllocExternalMemory allocSize ;;
    if negb ok
    then raiseRangeError "Cannot allocate an external string primitive."
    else create T (repeat 0 (N.to_nat length)).

(** [vmcast<ExternalStringPrimitive<T>>(cell)] *)
Definition vmcast (T : CharT) (cell : Addr) : VM StringPrimitive :=
  self <- deref cell ;;
  match decide (cellKind self = ExternalKind T) with
  | left _ => ret self
  | right _ => fun _ => None
  end.

(** The destructor: the buffer is released and the cell is dead. *)
Definition destroy (cell : Addr) : VM unit :=
  fun rt => Some (Returned tt, setCells rt (delete cell (cells rt))).

(** [_finalizeImpl(GCCell *cell, GC *gc)] (lines 379-384) *)
Definition _finalizeImpl (T : CharT) (cell : Addr) : VM unit :=
  self <- vmcast T cell ;;
  debitExternalMemory cell (getStringByteSize T self) ;;;
  destroy cell.

(** [_mallocSizeImpl(GCCell *cell)] (lines 386-390) *)
Definition _mallocSizeImpl (T : CharT) (cell : Addr) : VM N :=
  self <- vmcast T cell ;;
  ret (getStringByteSize T self).
End WithLimits.
End ExternalStringPrimitive.

(** ** The facade: allocation entry points of [StringPrimitive] *)

Section Facade.
Context `{StringLimits}.

(** Modelled from the spec: [StringPrimitive::create(runtime, length,
    asciiNotUTF16)] is defined in the header.  A lower-level entry point
    that allocates fresh inline storage of the requested size and
    encoding, without the empty, single-character or external fast
    paths; requesting a length above the maximum fails with the
    length-exceeded range error and leaves no object allocated. *)
Definition create (length : N) (asciiNotUTF16 : bool) : VM HermesValue :=
  if MAX_STRING_LENGTH <? length
  then raiseRangeError "String length exceeds limit"
  else if asciiNotUTF16
       then DynamicStringPrimitive.createOfLength char false length
       else DynamicStringPrimitive.createOfLength char16_t false length.

(** Modelled from the spec: [StringPrimitive::create(runtime, span)], the
    same entry point for a span: fresh inline storage of the encoding of
    the span, the characters copied in. *)
Definition createOfRef (T : CharT) (str : list CodeUnit)
  : VM HermesValue :=
  v <- create (toUInt32 (size str)) (charIs8Bit T) ;;
  writeChars (getString v) 0 str ;;;
  ret v.
End Facade.

(** ** The string builder

    Modelled from the spec: [StringBuilder] is defined in
    [StringBuilder.h].  A write-once accumulator: it allocates the inline
    destination of the target length and encoding once, up front; each
    append writes at the next unwritten offset, narrow spans being
    up-converted into a wide destination; appending wide content into a
    narrow destination violates the contract. *)

Module StringBuilder.
Section WithLimits.
Context `{StringLimits}.

(** Modelled from the spec: the destination and the next unwritten
    offset. *)
Record t := make { strPrim : Addr; index : N }.

(** Modelled from the spec: [createStringBuilder] fails with the range
    error when the length has overflowed or exceeds the maximum, and
    otherwise allocates the destination through [StringPrimitive::create]. *)
Definition createStringBuilder (length : SafeUInt32.t) (isASCII : bool)
  : VM t :=
  if SafeUInt32.isOverflowed length
  then raiseRangeError "String length exceeds limit"
  else
    n <- SafeUInt32.get length ;;
    crtRes <- create n isASCII ;;
    ret (make (getString crtRes) 0).

(** Modelled from the spec: [appendASCIIRef] writes a narrow span at the
    next offset of a destination of either encoding. *)
Definition appendASCIIRef (b : t) (ascii : list CodeUnit) : VM t :=
  writeChars (strPrim b) (index b) ascii ;;;
  ret (make (strPrim b) (index b + size ascii)).

(** Modelled from the spec: [appendUTF16Ref] writes a wide span at the
    next offset; the destination must be wide. *)
Definition appendUTF16Ref (b : t) (utf16 : list CodeUnit) : VM t :=
  dst <- deref (strPrim b) ;;
  assert (negb (isASCII dst)) ;;;
  writeChars (strPrim b) (index b) utf16 ;;;
  ret (make (strPrim b) (index b + size utf16)).

(** Modelled from the spec: [appendStringPrim] appends a whole string,
    dispatching on its encoding. *)
Definition appendStringPrim (b : t) (other : Addr) : VM t :=
  o <- deref other ;;
  if isASCII o
  then appendASCIIRef b (contents o)
  else appendUTF16Ref b (contents o).

(** Modelled from the spec: [getStringPrimitive], the finished string. *)
Definition getStringPrimitive (b : t) : VM Addr := ret (strPrim b).
End WithLimits.
End StringBuilder.

(** ** The facade: [StringPrimitive] (lines 59-262) *)

Section Facade.
Context `{StringLimits}.

(** An undefined read aborts the computation. *)
Definition liftOption {A} (o : option A) : VM A :=
  fun rt => match o with Some a => Some (Returned a, rt) | None => None end.

(** Modelled from the spec: [castToASCIIRef()] of the header, the
    characters of a narrow string; the cast asserts the encoding. *)
Definition castToASCIIRef (s : StringPrimitive) : option (list CodeUnit) :=
  if isASCII s then Some (contents s) else None.

(** Modelled from the spec: [castToUTF16Ref()] of the header, the
    characters of a wide string. *)
Definition castToUTF16Ref (s : StringPrimitive) : option (list CodeUnit) :=
  if isASCII s then None else Some (contents s).

(** Modelled from the spec: [castToASCIIRef(start, length)] and
    [castToASCIIPointer() + start], a window of a narrow string. *)
Definition castToASCIIRefAt (s : StringPrimitive) (start length : N)
  : option (list CodeUnit) :=
  if isASCII s then window start length (contents s) else None.

(** Modelled from the spec: [castToUTF16Ref(start, length)] and
    [castToUTF16Pointer() + start], a window of a wide string. *)
Definition castToUTF16RefAt (s : StringPrimitive) (start length : N)
  : option (list CodeUnit) :=
  if isASCII s then None else window start length (contents s).

(** Modelled from the spec: [castToASCIIPointerForWrite()] of the header,
    here followed by the [std::copy] of line 97 to the start of the
    character data of a narrow string. *)
Definition copyToASCIIPointerForWrite (output : Addr)
    (str : list CodeUnit) : VM unit :=
  s <- deref output ;;
  assert (isASCII s) ;;;
  writeChars output 0 str.

(** [createEfficientImpl] (lines 59-102).  [optStorage] is the owned
    buffer, when one is passed. *)
Definition createEfficientImpl (T : CharT) (str : list CodeUnit)
    (optStorage : option (list CodeUnit)) : VM HermesValue :=
  assert (match optStorage with
          | None => true
          | Some storage => bool_decide (str = storage)
          end) ;;;
  assert (negb (charIs8Bit T) || isAllASCII str) ;;;
  match str with
  | [] =>
      p <- getPredefinedEmptyString ;;
      ret (encodeStringValue p)
  | [c] =>
      p <- getCharacterString c ;;
      ret (encodeStringValue p)
  | _ =>
      let inlineCopy : VM HermesValue :=
        (* Check if we fit in ASCII. *)
        let isAscii := charIs8Bit T || isAllASCII str in
        if isAscii
        then
          result <- create (toUInt32 (size str)) isAscii ;;
          let output := getString result in
          copyToASCIIPointerForWrite output str ;;;
          ret (encodeStringValue output)
        else createOfRef T str in
      (* Check if we should acquire ownership of storage. *)
      match optStorage with
      | Some storage =>
          if EXTERNAL_STRING_MIN_SIZE <=? size str
          then ExternalStringPrimitive.create T storage
          else inlineCopy
      | None => inlineCopy
      end
  end.

(** The four overloads of [createEfficient] (lines 104-128). *)
Definition createEfficientASCIIRef (str : list CodeUnit)
  : VM HermesValue := createEfficientImpl char str None.

Definition createEfficientUTF16Ref (str : list CodeUnit)
  : VM HermesValue := createEfficientImpl char16_t str None.

Definition createEfficientString (str : list CodeUnit)
  : VM HermesValue := createEfficientImpl char str (Some str).

Definition createEfficientU16String (str : list CodeUnit)
  : VM HermesValue := createEfficientImpl char16_t str (Some str).

(** [sliceEquals] (lines 130-148) *)
Definition sliceEquals (self : StringPrimitive) (start length : N)
    (other : StringPrimitive) : option bool :=
  if isASCII self then
    if isASCII other then
      a ← castToASCIIRefAt self start length;
      b ← castToASCIIRef other;
      Some (stringRefEquals a b)
    else
      a ← castToASCIIRefAt self start length;
      b ← castToUTF16Ref other;
      Some (stringRefEquals a b)
  else if isASCII other then
    a ← castToUTF16RefAt self start length;
    b ← castToASCIIRef other;
    Some (stringRefEquals a b)
  else
    a ← castToUTF16RefAt self start length;
    b ← castToUTF16Ref other;
    Some (stringRefEquals a b).

(** [equals(const StringPrimitive *other)] (lines 150-155) *)
Definition equals (rt : Runtime) (this other : Addr) : option bool :=
  self ← cells rt !! this;
  if bool_decide (this = other) then Some true
  else
    o ← cells rt !! other;
    sliceEquals self 0 (getStringLength self) o.

(** [compare] (lines 164-175) *)
Definition compareCells (self other : StringPrimitive) : option Z :=
  if isASCII self then
    if isASCII other then
      a ← castToASCIIRef self;
      b ← castToASCIIRef other;
      Some (stringRefCompare a b)
    else
      a ← castToASCIIRef self;
      b ← castToUTF16Ref other;
      Some (stringRefCompare a b)
  else if isASCII other then
    a ← castToUTF16Ref self;
    b ← castToASCIIRef other;
    Some (stringRefCompare a b)
  else
    a ← castToUTF16Ref self;
    b ← castToUTF16Ref other;
    Some (stringRefCompare a b).

Definition compare (rt : Runtime) (this other : Addr) : option Z :=
  self ← cells rt !! this;
  o ← cells rt !! other;
  compareCells self o.

(** [concat] (lines 177-204) *)
Definition concat (xHandle yHandle : Addr) : VM HermesValue :=
  x <- deref xHandle ;;
  y <- deref yHandle ;;
  let xLen := getStringLength x in
  let yLen := getStringLength y in
  if xLen =? 0 then
    (* x is the empty string, just return y. *)
    ret (encodeStringValue yHandle)
  else if yLen =? 0 then
    (* y is the empty string, just return x. *)
    ret (encodeStringValue xHandle)
  else
    let xyLen := SafeUInt32.add (SafeUInt32.make xLen) yLen in
    builder <- StringBuilder.createStringBuilder xyLen
                 (isASCII x && isASCII y) ;;
    builder <- StringBuilder.appendStringPrim builder xHandle ;;
    builder <- StringBuilder.appendStringPrim builder yHandle ;;
    p <- StringBuilder.getStringPrimitive builder ;;
    ret (encodeStringValue p).

(** [slice] (lines 206-229).  [start] and [length] are [size_t]; their
    sum is taken exactly. *)
Definition slice (str : Addr) (start length : N) : VM HermesValue :=
  s <- deref str ;;
  assert (start + length <=? getStringLength s) ;;;
  let safeLen := SafeUInt32.make length in
  builder <- StringBuilder.createStringBuilder safeLen (isASCII s) ;;
  s <- deref str ;;
  builder <-
    (if isASCII s
     then
       ref <- liftOption (castToASCIIRefAt s start length) ;;
       StringBuilder.appendASCIIRef builder ref
     else
       ref <- liftOption (castToUTF16RefAt s start length) ;;
       StringBuilder.appendUTF16Ref builder ref) ;;
  p <- StringBuilder.getStringPrimitive builder ;;
  ret (encodeStringValue p).
End Facade.

(** ** Bulk copy (lines 238-257) *)

(** [copyUTF16String(llvm::SmallVectorImpl<char16_t> &str)] (lines
    238-247): the units in [ptr, ptr + getStringLength()) are appended to
    the vector, narrow units widened by value. *)
Definition copyUTF16String (self : StringPrimitive) (str : list CodeUnit)
  : option (list CodeUnit) :=
  if isASCII self then
    ptr ← castToASCIIRefAt self 0 (getStringLength self);
    Some (str ++ ptr)
  else
    ptr ← castToUTF16RefAt self 0 (getStringLength self);
    Some (str ++ ptr).

(** [copyUTF16String(char16_t *ptr)] (lines 249-257): the units in
    [src, src + getStringLength()) are copied to [ptr].  The destination
    is the buffer [ptr] points into, at the offset of [ptr]; writing past
    its end is undefined. *)
Definition copyUTF16StringTo (self : StringPrimitive)
    (buffer : list CodeUnit) (ptr : N) : option (list CodeUnit) :=
  if isASCII self then
    src ← castToASCIIRefAt self 0 (getStringLength self);
    copyInto buffer ptr src
  else
    src ← castToUTF16RefAt self 0 (getStringLength self);
    copyInto buffer ptr src.

(** ** Sequences of external constructions and their reclamation *)

(** A request to one of the three construction paths of an external
    string. *)
Inductive ExternalRequest :=
| RequestCreate (T : CharT) (str : list CodeUnit)
| RequestCreateLongLived (T : CharT) (str : list CodeUnit) (uniqueID : SymbolID)
| RequestCreateOfLength (T : CharT) (length : N).

(** The unit type of a cell kind. *)
Definition kindCharT (k : CellKind) : CharT :=
  if kindIsASCII k then char else char16_t.

(** The byte size of the character data of a cell. *)
Definition cellByteSize (s : StringPrimitive) : N :=
  ExternalStringPrimitive.getStringByteSize (kindCharT (cellKind s)) s.

(** The sum of a list of byte counts. *)
Fixpoint sumBytes (ns : list N) : N :=
  match ns with
  | [] => 0
  | n :: ns' => n + sumBytes ns'
  end.

Section Reclamation.
Context `{StringLimits}.

Definition construct (r : ExternalRequest) : VM HermesValue :=
  match r with
  | RequestCreate T str => ExternalStringPrimitive.create T str
  | RequestCreateLongLived T str uniqueID =>
      ExternalStringPrimitive.createLongLived T str uniqueID
  | RequestCreateOfLength T length =>
      ExternalStringPrimitive.createOfLength T length
  end.

(** The precondition asserted by a request. *)
Definition requestOk (r : ExternalRequest) : Prop :=
  match r with
  | RequestCreateOfLength _ length => isExternalLength length = true
  | _ => True
  end.

(** Serve the requests in order; a failed request leaves its error and
    no string.  The strings constructed are returned in order, each with
    the bytes the ledger was credited by its construction. *)
Fixpoint constructAll (reqs : list ExternalRequest) (rt : Runtime)
  : option (list (Addr * N) * Runtime) :=
  match reqs with
  | [] => Some ([], rt)
  | r :: reqs' =>
      match construct r rt with
      | Some (Returned v, rt') =>
          match constructAll reqs' rt' with
          | Some (objs, rt'') =>
              Some ((getString v, externalCredited rt' - externalCredited rt)
                      :: objs, rt'')
          | None => None
          end
      | Some (EXCEPTION, rt') => constructAll reqs' rt'
      | None => None
      end
  end.

(** Modelled from the spec: the finalizer hook is invoked by the
    collector immediately before it reclaims a cell of external storage;
    the hook of a variant is its [_finalizeImpl].  Cells of the other
    variants have no finalizer. *)
Definition finalizeCell (cell : Addr) : VM unit :=
  s <- deref cell ;;
  match cellKind s with
  | ExternalASCIIStringPrimitiveKind =>
      ExternalStringPrimitive._finalizeImpl char cell
  | ExternalUTF16StringPrimitiveKind =>
      ExternalStringPrimitive._finalizeImpl char16_t cell
  | _ => ret tt
  end.

(** Reclaim each of the cells once, in order.  The bytes debited by each
    finalization are returned in the same order. *)
Fixpoint finalizeAll (objs : list Addr) (rt : Runtime)
  : option (list N * Runtime) :=
  match objs with
  | [] => Some ([], rt)
  | p :: objs' =>
      match finalizeCell p rt with
      | Some (_, rt') =>
          match finalizeAll objs' rt' with
          | Some (debits, rt'') =>
              Some ((externalDebited rt' - externalDebited rt) :: debits,
                    rt'')
          | None => None
          end
      | None => None
      end
  end.
End Reclamation.

(** ** Well-formed runtimes and sample data *)

(** The invariant of the bump allocator: every live cell lies below the
    allocation pointer. *)
Definition heapWf (rt : Runtime) : Prop :=
  map_Forall (fun p _ => p < level rt) (cells rt).

(** Every string live in [rt] is live and unchanged in [rt']. *)
Definition heapExtends (rt rt' : Runtime) : Prop :=
  forall p s, cells rt !! p = Some s -> cells rt' !! p = Some s.

(** The predefined string a span of fewer than two code units is served
    from holds that span: the empty string holds no unit, the cached
    string of a character holds that character. *)
Definition predefinedHolds (rt : Runtime) (str : list CodeUnit) : Prop :=
  match str with
  | [] => exists s, cells rt !! emptyString rt = Some s /\ contents s = []
  | [c] => exists s, cells rt !! charStrings rt c = Some s /\ contents s = [c]
  | _ => True
  end.

(** The cell [DynamicStringPrimitive::create] builds from a span. *)
Definition dynamicCell (T : CharT) (Uniqued inLongLived : bool)
    (str : list CodeUnit) : StringPrimitive :=
  {| cellKind := DynamicKind T Uniqued; longLived := inLongLived;
     hasFinalizer := false; uniqued := Uniqued; uniqueID_ := None;
     contents := str |}.


(** Strict lexicographic order over code-unit values: the spans differ
    first at a position where [u] holds the smaller unit, or [u] is a
    proper prefix of [v]. *)
Definition lexLess (u v : list CodeUnit) : Prop :=
  (exists p x y u' v', u = p ++ x :: u' /\ v = p ++ y :: v' /\ x < y)
  \/ (exists y v', v = u ++ y :: v').

(** The runtime after one allocation and construction of [cell] at the
    allocation pointer. *)
Definition allocated (rt : Runtime) (cell : StringPrimitive) : Runtime :=
  setCells (setLevel rt (level rt + 1)) (<[level rt := cell]> (cells rt)).

(** The cell [concat] builds for two non-empty operands: plain inline
    storage, narrow only if both operands are, holding the units of the
    first followed by those of the second. *)
Definition concatCell (sx sy : StringPrimitive) : StringPrimitive :=
  {| cellKind :=
       DynamicKind (if isASCII sx && isASCII sy then char else char16_t)
         false;
     longLived := false; hasFinalizer := false; uniqued := false;
     uniqueID_ := None; contents := contents sx ++ contents sy |}.

(** The cell [slice] builds: plain inline storage of the encoding of the
    source, holding the units of the window. *)
Definition sliceCell (s : StringPrimitive) (start length : N)
  : StringPrimitive :=
  {| cellKind := DynamicKind (if isASCII s then char else char16_t) false;
     longLived := false; hasFinalizer := false; uniqued := false;
     uniqueID_ := None;
     contents := take (N.to_nat length) (drop (N.to_nat start) (contents s)) |}.

(** The invariant of the data model on a string value: its length is a
    [uint32_t] and does not exceed [MAX_STRING_LENGTH]. *)
Definition stringWf `{StringLimits} (s : StringPrimitive) : Prop :=
  getStringLength s <= MAX_STRING_LENGTH /\ getStringLength s <= UINT32_MAX.

(** The cell of a plain external string adopting the buffer [str]:
    allocated in the default pool, with a finalizer. *)
Definition externalCell (T : CharT) (str : list CodeUnit) : StringPrimitive :=
  ExternalStringPrimitive.new T str false true.

(** The cell of a plain inline string holding a copy of [str], narrow when
    [ascii] is set and wide otherwise. *)
Definition inlineCell (ascii : bool) (str : list CodeUnit) : StringPrimitive :=
  {| cellKind := DynamicKind (if ascii then char else char16_t) false;
     longLived := false; hasFinalizer := false; uniqued := false;
     uniqueID_ := None; contents := str |}.

(** The runtime after crediting [n] bytes of external memory. *)
Definition credited (rt : Runtime) (n : N) : Runtime :=
  setLedger rt (externalCredited rt + n) (externalDebited rt).

(** The ownership test of [createEfficientImpl]: an owned buffer is passed
    and the span is long enough to adopt it. *)
Definition adoptsStorage `{StringLimits} (str : list CodeUnit)
    (optStorage : option (list CodeUnit)) : bool :=
  match optStorage with
  | Some _ => EXTERNAL_STRING_MIN_SIZE <=? size str
  | None => false
  end.

(** The runtime after raising a range error with text [msg]. *)
Definition raised (rt : Runtime) (msg : string) : Runtime :=
  setThrownValue rt (RangeError msg).

(** The byte sizes the code computes in [uint32_t] do not wrap when twice
    the maximal length fits in 32 bits. *)
Definition limitsFit `{StringLimits} : Prop :=
  2 * MAX_STRING_LENGTH <= UINT32_MAX.

(** Limits at the magnitudes of a production build: strings of at most
    2^28 code units, owned buffers adopted from 128 code units on,
    lengths from 64K on stored externally. *)
Definition sampleLimits : StringLimits :=
  {| MAX_STRING_LENGTH := 268435456;
     EXTERNAL_STRING_MIN_SIZE := 128;
     isExternalLength := fun n => 65536 <=? n |}.

Definition predefinedCell (id : SymbolID) (cs : list CodeUnit)
  : StringPrimitive :=
  {| cellKind := DynamicUniquedASCIIStringPrimitiveKind; longLived := true;
     hasFinalizer := false; uniqued := true; uniqueID_ := Some id;
     contents := cs |}.

(** A runtime after start-up: the empty string at address 0, the
    single-character strings of the ASCII range behind it, an empty
    ledger and a budget of 2^28 bytes of external memory. *)
Definition bootCells : gmap N StringPrimitive :=
  <[0 := predefinedCell 0 []]>
    (list_to_map
       (map (fun c => (1 + N.of_nat c, predefinedCell (1 + N.of_nat c) [N.of_nat c]))
            (seq 0 128))).

Definition bootRuntime : Runtime :=
  {| cells := bootCells; level := 65537;
     externalCredited := 0; externalDebited := 0;
     heapCanAllocExternalMemory := fun n => n <=? 268435456;
     emptyString := 0; charStrings := fun c => 1 + c;
     thrownValue := None |}.

Definition plainCell (k : CellKind) (cs : list CodeUnit) : StringPrimitive :=
  {| cellKind := k; longLived := false;
     hasFinalizer := kindIsExternal k; uniqued := false; uniqueID_ := None;
     contents := cs |}.

(** Sample strings: a wide one, a narrow one, a narrow external one of
    maximal length, and the heaps holding them above the predefined
    strings. *)
Definition wideSample : StringPrimitive :=
  plainCell DynamicUTF16StringPrimitiveKind [97; 98; 300].

Definition narrowSample : StringPrimitive :=
  plainCell DynamicASCIIStringPrimitiveKind [65; 66].

Definition maximalSample : StringPrimitive :=
  plainCell ExternalASCIIStringPrimitiveKind (repeat 97 (N.to_nat 268435456)).

Definition helloSample : StringPrimitive :=
  plainCell DynamicASCIIStringPrimitiveKind
    [104; 101; 108; 108; 111; 32; 119; 111; 114; 108; 100].

Definition helloRuntime : Runtime := allocated bootRuntime helloSample.

(** An owned buffer one code unit longer than the maximal length, all
    ASCII. *)
Definition oversizeBuffer : list CodeUnit :=
  repeat 97 (N.to_nat 268435457).

(** An owned buffer of 200 ASCII code units. *)
Definition asciiBuffer : list CodeUnit := repeat 97 200.

(** Three requests: a wide buffer, a length above the limit, a long-lived
    narrow buffer. *)
Definition sampleRequests : list ExternalRequest :=
  [RequestCreate char16_t [104; 105];
   RequestCreateOfLength char 268435457;
   RequestCreateLongLived char [104; 105; 106] 7].

(** The narrow string "cafe" and a wide string differing from it in the
    last unit, which lies above 255. *)
Definition cafeNarrow : StringPrimitive :=
  plainCell DynamicASCIIStringPrimitiveKind [99; 97; 102; 101].

Definition cafeWide : StringPrimitive :=
  plainCell DynamicUTF16StringPrimitiveKind [99; 97; 102; 283].

Definition cafeRuntime : Runtime :=
  allocated (allocated bootRuntime cafeNarrow) cafeWide.

Definition sampleRuntime : Runtime :=
  allocated (allocated bootRuntime wideSample) narrowSample.

Definition maximalRuntime : Runtime :=
  allocated (allocated bootRuntime maximalSample) narrowSample.

(** * Properties *)

Lemma heapWf_decide (rt : Runtime) :
  bool_decide (map_Forall (fun p _ => p < level rt) (cells rt)) = true ->
  heapWf rt.
Proof. intros Hd. exact (bool_decide_eq_true_1 _ Hd). Qed.

Lemma heapWf_bootRuntime : heapWf bootRuntime.
Proof. apply heapWf_decide. vm_compute. reflexivity. Qed.

(** ** Spans *)

Lemma size_repeat (c : CodeUnit) (n : N) : size (repeat c (N.to_nat n)) = n.
Proof. unfold size. rewrite repeat_length. lia. Qed.

Lemma copyInto_eq (dst : list CodeUnit) (off : N) (src : list CodeUnit) :
  off + size src <= size dst ->
  copyInto dst off src
  = Some (take (N.to_nat off) dst ++ src
          ++ drop (N.to_nat off + length src) dst).
Proof.
  intros Hle. unfold copyInto.
  destruct (off + size src <=? size dst) eqn:E; [reflexivity|].
  apply N.leb_gt in E. lia.
Qed.

Lemma copyInto_whole (dst src : list CodeUnit) :
  size src = size dst -> copyInto dst 0 src = Some src.
Proof.
  intros Hsz. rewrite copyInto_eq by lia.
  unfold size in Hsz. simpl.
  rewrite drop_ge by lia. rewrite app_nil_r. reflexivity.
Qed.

Lemma window_eq (start len : N) (str : list CodeUnit) :
  start + len <= size str ->
  window start len str
  = Some (take (N.to_nat len) (drop (N.to_nat start) str)).
Proof.
  intros Hle. unfold window.
  destruct (start + len <=? size str) eqn:E; [reflexivity|].
  apply N.leb_gt in E. lia.
Qed.

Lemma window_size (start len : N) (str w : list CodeUnit) :
  window start len str = Some w -> size w = len.
Proof.
  unfold window. destruct (start + len <=? size str) eqn:E; [|discriminate].
  apply N.leb_le in E. intros [= <-].
  unfold size in *. rewrite length_take, length_drop. lia.
Qed.

(** ** Steps of the runtime *)

Lemma heapWf_lookup (rt : Runtime) (p : Addr) (s : StringPrimitive) :
  heapWf rt -> cells rt !! p = Some s -> p < level rt.
Proof. intros Hwf Hp. exact (Hwf p s Hp). Qed.

Lemma allocated_lookup_old (rt : Runtime) (cell s : StringPrimitive) (p : Addr) :
  heapWf rt -> cells rt !! p = Some s ->
  cells (allocated rt cell) !! p = Some s.
Proof.
  intros Hwf Hp. unfold allocated. simpl.
  rewrite lookup_insert_ne; [exact Hp|].
  pose proof (heapWf_lookup _ _ _ Hwf Hp). lia.
Qed.

Lemma allocated_lookup_new (rt : Runtime) (cell : StringPrimitive) :
  cells (allocated rt cell) !! level rt = Some cell.
Proof. unfold allocated. simpl. apply lookup_insert_eq. Qed.

Lemma heapWf_fresh (rt : Runtime) : heapWf rt -> cells rt !! level rt = None.
Proof.
  intros Hwf. destruct (cells rt !! level rt) as [s|] eqn:E; [|reflexivity].
  pose proof (heapWf_lookup _ _ _ Hwf E). lia.
Qed.

Lemma heapWf_allocated (rt : Runtime) (cell : StringPrimitive) :
  heapWf rt -> heapWf (allocated rt cell).
Proof.
  intros Hwf p s. unfold allocated. simpl.
  destruct (decide (level rt = p)) as [<-|Hne].
  - intros _. lia.
  - rewrite lookup_insert_ne by exact Hne. intros Hp.
    pose proof (heapWf_lookup _ _ _ Hwf Hp). lia.
Qed.

Lemma heapWf_raised (rt : Runtime) (msg : string) :
  heapWf rt -> heapWf (raised rt msg).
Proof. intros Hwf p s. simpl. apply Hwf. Qed.

Lemma writeChars_run (rt : Runtime) (p : Addr) (s : StringPrimitive)
    (off : N) (src : list CodeUnit) :
  cells rt !! p = Some s ->
  off + size src <= size (contents s) ->
  writeChars p off src rt
  = Some (Returned tt,
          setCells rt
            (<[p := setContents s
                      (take (N.to_nat off) (contents s) ++ src
                       ++ drop (N.to_nat off + length src) (contents s))]>
               (cells rt))).
Proof.
  intros Hp Hle. unfold writeChars. rewrite Hp.
  rewrite copyInto_eq by exact Hle. reflexivity.
Qed.

Section Steps.
Context `{StringLimits}.

Lemma create_run (rt : Runtime) (n : N) (ascii : bool) :
  n <= MAX_STRING_LENGTH ->
  create n ascii rt
  = Some (Returned (encodeStringValue (level rt)),
          allocated rt
            (DynamicStringPrimitive.newOfLength
               (if ascii then char else char16_t) false n false false)).
Proof.
  intros Hle. unfold create.
  destruct (MAX_STRING_LENGTH <? n) eqn:E.
  - apply N.ltb_lt in E. lia.
  - destruct ascii; reflexivity.
Qed.

Lemma create_raise (rt : Runtime) (n : N) (ascii : bool) :
  MAX_STRING_LENGTH < n ->
  create n ascii rt
  = Some (EXCEPTION, raised rt "String length exceeds limit").
Proof.
  intros Hlt. unfold create.
  apply N.ltb_lt in Hlt. rewrite Hlt. reflexivity.
Qed.

Lemma createStringBuilder_run (rt : Runtime) (n : N) (ascii : bool) :
  n <= MAX_STRING_LENGTH -> n <= UINT32_MAX ->
  StringBuilder.createStringBuilder (SafeUInt32.make n) ascii rt
  = Some (Returned (StringBuilder.make (level rt) 0),
          allocated rt
            (DynamicStringPrimitive.newOfLength
               (if ascii then char else char16_t) false n false false)).
Proof.
  intros Hmax H32. unfold StringBuilder.createStringBuilder.
  unfold SafeUInt32.get, SafeUInt32.isOverflowed.
  cbn [SafeUInt32.value].
  destruct (UINT32_MAX <? n) eqn:E; [apply N.ltb_lt in E; lia|].
  unfold bind, assert, ret. cbn [negb].
  rewrite create_run by exact Hmax.
  reflexivity.
Qed.

Lemma createStringBuilder_raise (rt : Runtime) (n : N) (ascii : bool) :
  MAX_STRING_LENGTH < n \/ UINT32_MAX < n ->
  StringBuilder.createStringBuilder (SafeUInt32.make n) ascii rt
  = Some (EXCEPTION, raised rt "String length exceeds limit").
Proof.
  intros Hbig. unfold StringBuilder.createStringBuilder.
  unfold SafeUInt32.get, SafeUInt32.isOverflowed.
  cbn [SafeUInt32.value].
  destruct (UINT32_MAX <? n) eqn:E; [reflexivity|].
  apply N.ltb_ge in E.
  destruct Hbig as [Hbig|Hbig]; [|lia].
  unfold bind, assert, ret. cbn [negb].
  rewrite create_raise by exact Hbig.
  reflexivity.
Qed.

Lemma appendASCIIRef_run (rt : Runtime) (b : StringBuilder.t)
    (d : StringPrimitive) (src : list CodeUnit) :
  cells rt !! StringBuilder.strPrim b = Some d ->
  StringBuilder.index b + size src <= size (contents d) ->
  StringBuilder.appendASCIIRef b src rt
  = Some (Returned (StringBuilder.make (StringBuilder.strPrim b)
                      (StringBuilder.index b + size src)),
          setCells rt
            (<[StringBuilder.strPrim b :=
                 setContents d
                   (take (N.to_nat (StringBuilder.index b)) (contents d)
                    ++ src
                    ++ drop (N.to_nat (StringBuilder.index b) + length src)
                         (contents d))]> (cells rt))).
Proof.
  intros Hd Hle. unfold StringBuilder.appendASCIIRef, bind.
  rewrite (writeChars_run _ _ _ _ _ Hd Hle). reflexivity.
Qed.

Lemma appendUTF16Ref_run (rt : Runtime) (b : StringBuilder.t)
    (d : StringPrimitive) (src : list CodeUnit) :
  cells rt !! StringBuilder.strPrim b = Some d ->
  isASCII d = false ->
  StringBuilder.index b + size src <= size (contents d) ->
  StringBuilder.appendUTF16Ref b src rt
  = Some (Returned (StringBuilder.make (StringBuilder.strPrim b)
                      (StringBuilder.index b + size src)),
          setCells rt
            (<[StringBuilder.strPrim b :=
                 setContents d
                   (take (N.to_nat (StringBuilder.index b)) (contents d)
                    ++ src
                    ++ drop (N.to_nat (StringBuilder.index b) + length src)
                         (contents d))]> (cells rt))).
Proof.
  intros Hd Hwide Hle. unfold StringBuilder.appendUTF16Ref, bind, deref.
  rewrite Hd. unfold assert. rewrite Hwide. simpl negb. cbv iota.
  rewrite (writeChars_run _ _ _ _ _ Hd Hle). reflexivity.
Qed.

Lemma appendStringPrim_run (rt : Runtime) (b : StringBuilder.t)
    (d o : StringPrimitive) (other : Addr) :
  cells rt !! other = Some o ->
  cells rt !! StringBuilder.strPrim b = Some d ->
  (isASCII o = false -> isASCII d = false) ->
  StringBuilder.index b + size (contents o) <= size (contents d) ->
  StringBuilder.appendStringPrim b other rt
  = Some (Returned (StringBuilder.make (StringBuilder.strPrim b)
                      (StringBuilder.index b + size (contents o))),
          setCells rt
            (<[StringBuilder.strPrim b :=
                 setContents d
                   (take (N.to_nat (StringBuilder.index b)) (contents d)
                    ++ contents o
                    ++ drop (N.to_nat (StringBuilder.index b)
                             + length (contents o)) (contents d))]>
               (cells rt))).
Proof.
  intros Ho Hd Henc Hle.
  unfold StringBuilder.appendStringPrim, bind at 1, deref. rewrite Ho.
  destruct (isASCII o) eqn:E.
  - apply appendASCIIRef_run; assumption.
  - apply appendUTF16Ref_run; auto.
Qed.
End Steps.

(** ** Concatenation *)

Section Concat.
Context `{StringLimits}.

Lemma concat_empty_left (rt : Runtime) (x y : Addr)
    (sx sy : StringPrimitive) :
  cells rt !! x = Some sx -> cells rt !! y = Some sy ->
  getStringLength sx = 0 ->
  concat x y rt = Some (Returned (encodeStringValue y), rt).
Proof.
  intros Hx Hy Hlen. unfold concat, bind, deref.
  rewrite Hx, Hy, Hlen. reflexivity.
Qed.

Lemma concat_empty_right (rt : Runtime) (x y : Addr)
    (sx sy : StringPrimitive) :
  cells rt !! x = Some sx -> cells rt !! y = Some sy ->
  getStringLength sx <> 0 -> getStringLength sy = 0 ->
  concat x y rt = Some (Returned (encodeStringValue x), rt).
Proof.
  intros Hx Hy Hnz Hlen. unfold concat, bind, deref.
  rewrite Hx, Hy, Hlen.
  destruct (getStringLength sx =? 0) eqn:E; [|reflexivity].
  apply N.eqb_eq in E. contradiction.
Qed.

Lemma concat_run (rt : Runtime) (x y : Addr) (sx sy : StringPrimitive) :
  heapWf rt ->
  cells rt !! x = Some sx -> cells rt !! y = Some sy ->
  getStringLength sx <> 0 -> getStringLength sy <> 0 ->
  getStringLength sx + getStringLength sy <= MAX_STRING_LENGTH ->
  getStringLength sx + getStringLength sy <= UINT32_MAX ->
  concat x y rt
  = Some (Returned (encodeStringValue (level rt)),
          allocated rt (concatCell sx sy)).
Proof.
  intros Hwf Hx Hy Hnx Hny Hmax H32.
  unfold concat. unfold bind at 1, deref at 1. rewrite Hx.
  unfold bind at 1, deref at 1. rewrite Hy.
  destruct (getStringLength sx =? 0) eqn:Ex;
    [apply N.eqb_eq in Ex; contradiction|].
  destruct (getStringLength sy =? 0) eqn:Ey;
    [apply N.eqb_eq in Ey; contradiction|].
  unfold SafeUInt32.add. cbn [SafeUInt32.value].
  set (T := if isASCII sx && isASCII sy then char else char16_t).
  set (n := getStringLength sx + getStringLength sy) in *.
  set (d0 := DynamicStringPrimitive.newOfLength T false n false false).
  unfold bind at 1.
  rewrite (createStringBuilder_run rt n _ Hmax H32). fold T. fold d0.
  (* first append *)
  unfold bind at 1.
  assert (Hsz0 : size (contents d0) = n) by apply size_repeat.
  rewrite (appendStringPrim_run (allocated rt d0) _ d0 sx x).
  2: { apply allocated_lookup_old; assumption. }
  2: { apply allocated_lookup_new. }
  2: { intros Hw. unfold d0, T, isASCII at 1. cbn [cellKind DynamicStringPrimitive.newOfLength].
       rewrite Hw. reflexivity. }
  2: { cbn [StringBuilder.index]. rewrite Hsz0.
       unfold n, getStringLength, size. lia. }
  cbn [StringBuilder.index StringBuilder.strPrim].
  set (c1 := take (N.to_nat 0) (contents d0) ++ contents sx
             ++ drop (N.to_nat 0 + length (contents sx)) (contents d0)).
  set (d1 := setContents d0 c1).
  set (rt1 := setCells (allocated rt d0) _).
  assert (Hc1 : c1 = contents sx
                     ++ repeat 0 (length (contents sy))).
  { unfold c1, d0. cbn [contents DynamicStringPrimitive.newOfLength].
    change (N.to_nat 0) with 0%nat. rewrite take_0. cbn [app Nat.add].
    f_equal. unfold n, getStringLength.
    replace (N.to_nat (N.of_nat (length (contents sx))
                       + N.of_nat (length (contents sy))))
      with (length (contents sx) + length (contents sy))%nat by lia.
    rewrite repeat_app, drop_app_length'; [reflexivity|].
    symmetry. apply repeat_length. }
  (* second append *)
  unfold bind at 1.
  assert (Hl1 : cells rt1 !! level rt = Some d1).
  { unfold rt1. cbn [cells setCells]. apply lookup_insert_eq. }
  assert (Hy1 : cells rt1 !! y = Some sy).
  { unfold rt1. cbn [cells setCells].
    rewrite lookup_insert_ne.
    - apply allocated_lookup_old; assumption.
    - pose proof (heapWf_lookup _ _ _ Hwf Hy). lia. }
  rewrite (appendStringPrim_run rt1
             (StringBuilder.make (level rt) (0 + size (contents sx)))
             d1 sy y Hy1 Hl1).
  2: { intros Hw. unfold d1, d0, T, isASCII at 1.
       cbn [cellKind setContents DynamicStringPrimitive.newOfLength].
       rewrite Hw, andb_false_r. reflexivity. }
  2: { cbn [StringBuilder.index StringBuilder.strPrim].
       unfold d1. cbn [contents setContents]. rewrite Hc1.
       unfold size. rewrite length_app, repeat_length. lia. }
  cbn [StringBuilder.index StringBuilder.strPrim].
  unfold bind, StringBuilder.getStringPrimitive, ret.
  cbn [StringBuilder.strPrim].
  f_equal. f_equal.
  unfold rt1, allocated, setCells, setLevel. cbn [cells level
    externalCredited externalDebited heapCanAllocExternalMemory
    emptyString charStrings thrownValue].
  rewrite !insert_insert_eq.
  f_equal. f_equal.
  unfold concatCell, d1, d0, setContents.
  cbn [cellKind longLived hasFinalizer uniqued uniqueID_ contents
         DynamicStringPrimitive.newOfLength].
  fold T. f_equal.
  rewrite Hc1.
  replace (N.to_nat (0 + size (contents sx)))
    with (length (contents sx)) by (unfold size; lia).
  rewrite take_app_length.
  rewrite drop_ge; [rewrite app_nil_r; reflexivity|].
  rewrite length_app, repeat_length. lia.
Qed.

Lemma concat_raise (rt : Runtime) (x y : Addr) (sx sy : StringPrimitive) :
  cells rt !! x = Some sx -> cells rt !! y = Some sy ->
  getStringLength sx <> 0 -> getStringLength sy <> 0 ->
  MAX_STRING_LENGTH < getStringLength sx + getStringLength sy
  \/ UINT32_MAX < getStringLength sx + getStringLength sy ->
  concat x y rt
  = Some (EXCEPTION, raised rt "String length exceeds limit").
Proof.
  intros Hx Hy Hnx Hny Hbig.
  unfold concat. unfold bind at 1, deref at 1. rewrite Hx.
  unfold bind at 1, deref at 1. rewrite Hy.
  destruct (getStringLength sx =? 0) eqn:Ex;
    [apply N.eqb_eq in Ex; contradiction|].
  destruct (getStringLength sy =? 0) eqn:Ey;
    [apply N.eqb_eq in Ey; contradiction|].
  unfold SafeUInt32.add. cbn [SafeUInt32.value].
  unfold bind at 1.
  rewrite (createStringBuilder_raise rt _ _ Hbig). reflexivity.
Qed.
End Concat.

(** C1 (as amended).  For two non-empty strings [x] and [y] of a
    well-formed heap whose lengths sum to at most [MAX_STRING_LENGTH] (and
    fit 32 bits), [concat] returns a fresh cell, at an address that was not
    live and leaving every other cell as it was, whose length is the sum of
    the lengths, whose code units are those of [x] followed by those of
    [y], and which is narrow exactly when both operands are narrow.  When
    the sum exceeds the limit, [concat] raises the range error "String
    length exceeds limit" and allocates nothing. *)
Theorem concat_nonempty `{StringLimits} (rt : Runtime) (x y : Addr)
    (sx sy : StringPrimitive) :
  heapWf rt ->
  cells rt !! x = Some sx -> cells rt !! y = Some sy ->
  getStringLength sx <> 0 -> getStringLength sy <> 0 ->
  let total := getStringLength sx + getStringLength sy in
  if (total <=? MAX_STRING_LENGTH) && (total <=? UINT32_MAX)
  then
    concat x y rt
    = Some (Returned (encodeStringValue (level rt)),
            allocated rt (concatCell sx sy))
    /\ cells rt !! level rt = None
    /\ getStringLength (concatCell sx sy) = total
    /\ contents (concatCell sx sy) = contents sx ++ contents sy
    /\ isASCII (concatCell sx sy) = isASCII sx && isASCII sy
  else
    concat x y rt
    = Some (EXCEPTION, raised rt "String length exceeds limit")
    /\ cells (raised rt "String length exceeds limit") = cells rt.
Proof.
  intros Hwf Hx Hy Hnx Hny total.
  destruct (total <=? MAX_STRING_LENGTH) eqn:Emax;
    [destruct (total <=? UINT32_MAX) eqn:E32|]; cbn [andb].
  - apply N.leb_le in Emax, E32.
    split; [apply concat_run; assumption|].
    split; [apply heapWf_fresh; assumption|].
    split.
    { unfold total, getStringLength, concatCell. cbn [contents].
      rewrite length_app. lia. }
    split; [reflexivity|].
    unfold concatCell, isASCII at 1. cbn [cellKind].
    destruct (isASCII sx && isASCII sy); reflexivity.
  - apply N.leb_gt in E32.
    split; [|reflexivity]. apply (concat_raise rt x y sx sy); auto.
  - apply N.leb_gt in Emax.
    split; [|reflexivity]. apply (concat_raise rt x y sx sy); auto.
Qed.

Lemma concat_nonempty_witness :
  concat (H := sampleLimits) 65537 65538 sampleRuntime
  = Some (Returned (encodeStringValue 65539),
          allocated sampleRuntime
            (plainCell DynamicUTF16StringPrimitiveKind [97; 98; 300; 65; 66])).
Proof.
  assert (Hwf : heapWf sampleRuntime)
    by (apply heapWf_decide; vm_compute; reflexivity).
  assert (Hx : cells sampleRuntime !! 65537 = Some wideSample)
    by (vm_compute; reflexivity).
  assert (Hy : cells sampleRuntime !! 65538 = Some narrowSample)
    by (vm_compute; reflexivity).
  assert (Hnx : getStringLength wideSample <> 0) by (vm_compute; discriminate).
  assert (Hny : getStringLength narrowSample <> 0)
    by (vm_compute; discriminate).
  exact (proj1 (concat_nonempty (H := sampleLimits) sampleRuntime 65537 65538
                  wideSample narrowSample Hwf Hx Hy Hnx Hny)).
Defined.

(** C1, counterexample.  A narrow external string of the maximal length
    2^28 and a two-character string are both non-empty, yet their
    concatenation returns no string: it raises the range error. *)
Lemma concat_of_maximal_string_raises :
  cells maximalRuntime !! 65537 = Some maximalSample
  /\ cells maximalRuntime !! 65538 = Some narrowSample
  /\ getStringLength maximalSample = 268435456
  /\ getStringLength narrowSample = 2
  /\ concat (H := sampleLimits) 65537 65538 maximalRuntime
     = Some (EXCEPTION, raised maximalRuntime "String length exceeds limit").
Proof.
  assert (Hlen : getStringLength maximalSample = 268435456).
  { unfold getStringLength, maximalSample, plainCell. cbn [contents].
    rewrite repeat_length. apply N2Nat.id. }
  assert (Hx : cells maximalRuntime !! 65537 = Some maximalSample).
  { unfold maximalRuntime, allocated.
    cbn [cells level setCells setLevel bootRuntime].
    rewrite lookup_insert_ne by discriminate. apply lookup_insert_eq. }
  assert (Hy : cells maximalRuntime !! 65538 = Some narrowSample).
  { unfold maximalRuntime, allocated.
    cbn [cells level setCells setLevel bootRuntime].
    apply lookup_insert_eq. }
  split; [exact Hx|]. split; [exact Hy|]. split; [exact Hlen|].
  split; [reflexivity|].
  apply (concat_raise (H := sampleLimits) _ _ _ _ _ Hx Hy).
  - rewrite Hlen. discriminate.
  - discriminate.
  - left. rewrite Hlen. vm_compute. reflexivity.
Qed.

(** C6 (as amended).  For every string [x] and every string [e] of length
    zero, [concat e x] returns the handle of [x] itself and leaves the
    runtime as it was (no allocation, no copy); [concat x e] does the same
    whenever [x] is non-empty.  When [x] has length zero too, [concat x e]
    returns the second operand [e]. *)
Theorem concat_empty_operand `{StringLimits} (rt : Runtime) (x e : Addr)
    (sx se : StringPrimitive) :
  cells rt !! x = Some sx -> cells rt !! e = Some se ->
  getStringLength se = 0 ->
  concat e x rt = Some (Returned (encodeStringValue x), rt)
  /\ concat x e rt
     = Some (Returned (encodeStringValue
                         (if getStringLength sx =? 0 then e else x)), rt).
Proof.
  intros Hx He Hlen. split.
  - apply (concat_empty_left rt e x se sx); assumption.
  - destruct (getStringLength sx =? 0) eqn:E.
    + apply N.eqb_eq in E.
      apply (concat_empty_left rt x e sx se); assumption.
    + apply N.eqb_neq in E.
      apply (concat_empty_right rt x e sx se); assumption.
Qed.

Lemma concat_empty_operand_witness :
  concat (H := sampleLimits) 0 65537 sampleRuntime
  = Some (Returned (encodeStringValue 65537), sampleRuntime)
  /\ concat (H := sampleLimits) 65537 0 sampleRuntime
     = Some (Returned (encodeStringValue 65537), sampleRuntime).
Proof.
  assert (Hx : cells sampleRuntime !! 65537 = Some wideSample)
    by (vm_compute; reflexivity).
  assert (He : cells sampleRuntime !! 0 = Some (predefinedCell 0 []))
    by (vm_compute; reflexivity).
  assert (Hlen : getStringLength (predefinedCell 0 []) = 0) by reflexivity.
  exact (concat_empty_operand (H := sampleLimits) sampleRuntime 65537 0
           wideSample (predefinedCell 0 []) Hx He Hlen).
Defined.

(** C6, counterexample.  [DynamicStringPrimitive::create(runtime, 0)]
    leaves a string [x] of length zero at address 65537, distinct from the
    predefined empty string at address 0.  [concat x empty] returns the
    predefined empty string, not the instance [x]. *)
Lemma concat_of_two_empty_strings_returns_second :
  let x := 65537 in
  let rt := allocated bootRuntime
              (DynamicStringPrimitive.newOfLength char false 0 false false) in
  DynamicStringPrimitive.createOfLength char false 0 bootRuntime
  = Some (Returned (encodeStringValue x), rt)
  /\ emptyString rt = 0
  /\ concat (H := sampleLimits) x (emptyString rt) rt
     = Some (Returned (encodeStringValue 0), rt)
  /\ encodeStringValue 0 <> encodeStringValue x.
Proof.
  intros x rt. split; [reflexivity|]. split; [reflexivity|].
  split; [|discriminate].
  apply (concat_empty_left (H := sampleLimits) rt x 0
           (DynamicStringPrimitive.newOfLength char false 0 false false)
           (predefinedCell 0 [])).
  - vm_compute. reflexivity.
  - vm_compute. reflexivity.
  - reflexivity.
Qed.

(** ** Metadata callbacks *)

(** C8 (as amended).  The callbacks of the plain dynamic variants declare
    no field; the callbacks of the uniqued dynamic variants and of both
    external variants declare exactly the identifier field [uniqueID],
    whether or not the external string is uniqued. *)
Theorem buildMeta_traced_fields (T : CharT) (cell : StringPrimitive) :
  tracedFields (DynamicKind T false) cell = []
  /\ tracedFields (DynamicKind T true) cell = ["uniqueID"%string]
  /\ tracedFields (ExternalKind T) cell = ["uniqueID"%string].
Proof. destruct T; repeat split. Qed.

(** C8, counterexample.  The string built by
    [ExternalStringPrimitive<char>::create] is plain (not uniqued), and the
    callback of its variant declares a traced field. *)
Lemma plain_external_declares_uniqueID :
  let rt := allocated bootRuntime (ExternalStringPrimitive.new char [104; 105] false true) in
  let cell := ExternalStringPrimitive.new char [104; 105] false true in
  ExternalStringPrimitive.create (H := sampleLimits) char [104; 105] bootRuntime
  = Some (Returned (encodeStringValue 65537), setLedger rt 2 0)
  /\ cells (setLedger rt 2 0) !! 65537 = Some cell
  /\ isExternal cell = true
  /\ isUniqued cell = false
  /\ ExternalASCIIStringPrimitiveBuildMeta cell [] = ["uniqueID"%string]
  /\ tracedFields (cellKind cell) cell <> [].
Proof.
  intros rt cell. split; [reflexivity|]. split; [vm_compute; reflexivity|].
  repeat split. discriminate.
Qed.

(** ** Slicing *)

Section Slice.
Context `{StringLimits}.

Lemma slice_run (rt : Runtime) (str : Addr) (s : StringPrimitive)
    (start length : N) :
  heapWf rt -> cells rt !! str = Some s ->
  start + length <= getStringLength s ->
  length <= MAX_STRING_LENGTH -> length <= UINT32_MAX ->
  slice str start length rt
  = Some (Returned (encodeStringValue (level rt)),
          allocated rt (sliceCell s start length)).
Proof.
  intros Hwf Hs Hwin Hmax H32.
  unfold slice. unfold bind at 1, deref at 1. rewrite Hs.
  unfold bind at 1, assert at 1.
  destruct (start + length <=? getStringLength s) eqn:E;
    [|apply N.leb_gt in E; lia].
  unfold bind at 1.
  rewrite (createStringBuilder_run rt length _ Hmax H32).
  set (T := if isASCII s then char else char16_t).
  set (d0 := DynamicStringPrimitive.newOfLength T false length false false).
  unfold bind at 1, deref at 1.
  rewrite (allocated_lookup_old rt d0 s str Hwf Hs).
  assert (Hw : window start length (contents s)
               = Some (take (N.to_nat length)
                         (drop (N.to_nat start) (contents s))))
    by (apply window_eq; exact Hwin).
  set (w := take (N.to_nat length) (drop (N.to_nat start) (contents s)))
    in *.
  assert (Hwsz : size w = length) by (eapply window_size; exact Hw).
  assert (Hd0 : cells (allocated rt d0) !! level rt = Some d0)
    by apply allocated_lookup_new.
  assert (Hd0sz : size (contents d0) = length) by apply size_repeat.
  assert (Hstep :
    (if isASCII s
     then bind (liftOption (castToASCIIRefAt s start length))
            (fun ref => StringBuilder.appendASCIIRef
                          (StringBuilder.make (level rt) 0) ref)
     else bind (liftOption (castToUTF16RefAt s start length))
            (fun ref => StringBuilder.appendUTF16Ref
                          (StringBuilder.make (level rt) 0) ref))
      (allocated rt d0)
    = Some (Returned (StringBuilder.make (level rt) (0 + size w)),
            setCells (allocated rt d0)
              (<[level rt := setContents d0 w]> (cells (allocated rt d0))))).
  { assert (Hfill : take (N.to_nat 0) (contents d0) ++ w
                    ++ drop (N.to_nat 0 + List.length w) (contents d0) = w).
    { change (N.to_nat 0) with 0%nat. rewrite take_0. cbn [app Nat.add].
      rewrite drop_ge; [apply app_nil_r|].
      unfold size in Hwsz, Hd0sz. lia. }
    destruct (isASCII s) eqn:Easc.
    - unfold bind, liftOption, castToASCIIRefAt. rewrite Easc, Hw.
      rewrite (appendASCIIRef_run (allocated rt d0)
                 (StringBuilder.make (level rt) 0) d0 w Hd0).
      + cbn [StringBuilder.index StringBuilder.strPrim].
        rewrite Hfill. reflexivity.
      + cbn [StringBuilder.index]. lia.
    - unfold bind, liftOption, castToUTF16RefAt. rewrite Easc, Hw.
      rewrite (appendUTF16Ref_run (allocated rt d0)
                 (StringBuilder.make (level rt) 0) d0 w Hd0).
      + cbn [StringBuilder.index StringBuilder.strPrim].
        rewrite Hfill. reflexivity.
      + unfold d0, T, isASCII.
        cbn [cellKind DynamicStringPrimitive.newOfLength]. reflexivity.
      + cbn [StringBuilder.index]. lia. }
  unfold bind at 1. rewrite Hstep.
  unfold bind, StringBuilder.getStringPrimitive, ret.
  cbn [StringBuilder.strPrim].
  f_equal. f_equal.
  unfold allocated, setCells, setLevel. cbn [cells level
    externalCredited externalDebited heapCanAllocExternalMemory
    emptyString charStrings thrownValue].
  rewrite insert_insert_eq. reflexivity.
Qed.
End Slice.

(** C5.  For every string [s] of a well-formed heap and every window
    [start], [length] with [start + length <= s.length], [slice] returns a
    fresh cell, at an address that was not live and sharing nothing with
    the parent, which is left as it was; the cell has the encoding of [s],
    its length is [length] and its code unit at each index [i] is the code
    unit of [s] at [start + i]. *)
Theorem slice_window `{StringLimits} (rt : Runtime) (str : Addr)
    (s : StringPrimitive) (start length : N) :
  heapWf rt -> cells rt !! str = Some s -> stringWf s ->
  start + length <= getStringLength s ->
  exists p rt' r,
    slice str start length rt = Some (Returned (encodeStringValue p), rt')
    /\ cells rt !! p = None
    /\ cells rt' = <[p := r]> (cells rt)
    /\ cells rt' !! str = Some s
    /\ isASCII r = isASCII s
    /\ getStringLength r = length
    /\ forall i : nat, (N.of_nat i < length) ->
         contents r !! i = contents s !! (N.to_nat start + i)%nat.
Proof.
  intros Hwf Hs [Hmax H32] Hwin.
  exists (level rt), (allocated rt (sliceCell s start length)),
    (sliceCell s start length).
  split; [apply slice_run; try assumption; lia|].
  split; [apply heapWf_fresh; assumption|].
  split; [reflexivity|].
  split; [apply allocated_lookup_old; assumption|].
  split.
  { unfold sliceCell, isASCII at 1. cbn [cellKind].
    destruct (isASCII s); reflexivity. }
  split.
  { unfold getStringLength, sliceCell in *. cbn [contents].
    rewrite length_take, length_drop. lia. }
  intros i Hi. unfold sliceCell. cbn [contents].
  rewrite lookup_take_lt by lia. apply lookup_drop.
Qed.

Lemma slice_window_witness :
  exists p rt' r,
    slice (H := sampleLimits) 65537 6 5 helloRuntime
    = Some (Returned (encodeStringValue p), rt')
    /\ cells helloRuntime !! p = None
    /\ cells rt' = <[p := r]> (cells helloRuntime)
    /\ cells rt' !! 65537 = Some helloSample
    /\ isASCII r = isASCII helloSample
    /\ getStringLength r = 5
    /\ forall i : nat, (N.of_nat i < 5) ->
         contents r !! i = contents helloSample !! (N.to_nat 6 + i)%nat.
Proof.
  assert (Hwf : heapWf helloRuntime)
    by (apply heapWf_decide; vm_compute; reflexivity).
  assert (Hs : cells helloRuntime !! 65537 = Some helloSample)
    by (vm_compute; reflexivity).
  assert (Hswf : stringWf (H := sampleLimits) helloSample)
    by (split; vm_compute; discriminate).
  assert (Hwin : 6 + 5 <= getStringLength helloSample)
    by (vm_compute; discriminate).
  exact (slice_window (H := sampleLimits) helloRuntime 65537 helloSample 6 5
           Hwf Hs Hswf Hwin).
Defined.

(** ** Construction dispatch *)

Lemma isAllASCII_repeat (c : CodeUnit) (n : nat) :
  c < 128 -> isAllASCII (repeat c n) = true.
Proof.
  intros Hc. unfold isAllASCII. induction n as [|n IH]; [reflexivity|].
  cbn [repeat forallb]. rewrite IH, andb_true_r. apply N.ltb_lt, Hc.
Qed.

Lemma toUInt32_small (n : N) : n <= UINT32_MAX -> toUInt32 n = n.
Proof.
  intros Hn. unfold toUInt32. apply N.mod_small. unfold UINT32_MAX in Hn. lia.
Qed.

Section CreateEfficient.
Context `{StringLimits}.

Lemma ExternalStringPrimitive_create_run (rt : Runtime) (T : CharT)
    (str : list CodeUnit) :
  size str <= MAX_STRING_LENGTH ->
  ExternalStringPrimitive.create T str rt
  = Some (Returned (encodeStringValue (level rt)),
          credited (allocated rt (externalCell T str))
            (ExternalStringPrimitive.allocSize T (size str))).
Proof.
  intros Hle. unfold ExternalStringPrimitive.create.
  destruct (MAX_STRING_LENGTH <? size str) eqn:E;
    [apply N.ltb_lt in E; lia | reflexivity].
Qed.

Lemma ExternalStringPrimitive_create_raise (rt : Runtime) (T : CharT)
    (str : list CodeUnit) :
  MAX_STRING_LENGTH < size str ->
  ExternalStringPrimitive.create T str rt
  = Some (EXCEPTION, raised rt "String length exceeds limit").
Proof.
  intros Hlt. unfold ExternalStringPrimitive.create.
  apply N.ltb_lt in Hlt. rewrite Hlt. reflexivity.
Qed.

Lemma createEfficientImpl_empty (rt : Runtime) (T : CharT)
    (optStorage : option (list CodeUnit)) :
  optStorage = None \/ optStorage = Some [] ->
  createEfficientImpl T [] optStorage rt
  = Some (Returned (encodeStringValue (emptyString rt)), rt).
Proof.
  intros [-> | ->]; unfold createEfficientImpl; destruct T; reflexivity.
Qed.

Lemma createEfficientImpl_single (rt : Runtime) (T : CharT) (c : CodeUnit)
    (optStorage : option (list CodeUnit)) :
  optStorage = None \/ optStorage = Some [c] ->
  (T = char -> isAllASCII [c] = true) ->
  createEfficientImpl T [c] optStorage rt
  = Some (Returned (encodeStringValue (charStrings rt c)), rt).
Proof.
  intros Hopt Hascii. unfold createEfficientImpl.
  assert (Ha : negb (charIs8Bit T) || isAllASCII [c] = true).
  { destruct T; [rewrite Hascii by reflexivity|]; reflexivity. }
  rewrite Ha.
  destruct Hopt as [-> | ->].
  - reflexivity.
  - rewrite bool_decide_eq_true_2 by reflexivity. reflexivity.
Qed.

(** From two code units on, the dispatch is decided by the ownership
    test. *)
Lemma createEfficientImpl_adopt (rt : Runtime) (T : CharT)
    (str : list CodeUnit) :
  1 < size str ->
  (T = char -> isAllASCII str = true) ->
  EXTERNAL_STRING_MIN_SIZE <= size str ->
  createEfficientImpl T str (Some str) rt
  = ExternalStringPrimitive.create T str rt.
Proof.
  intros Hlen Hascii Hmin. unfold createEfficientImpl.
  assert (Ha : negb (charIs8Bit T) || isAllASCII str = true).
  { destruct T; [rewrite Hascii by reflexivity|]; reflexivity. }
  rewrite Ha. rewrite bool_decide_eq_true_2 by reflexivity.
  destruct str as [|a [|b l]];
    [unfold size in Hlen; simpl in Hlen; lia
    |unfold size in Hlen; simpl in Hlen; lia|].
  apply N.leb_le in Hmin.
  unfold bind at 1, assert at 1. unfold bind at 1, assert at 1.
  rewrite Hmin. reflexivity.
Qed.

Lemma createEfficientImpl_inline (rt : Runtime) (T : CharT)
    (str : list CodeUnit) (optStorage : option (list CodeUnit)) :
  1 < size str ->
  optStorage = None \/ optStorage = Some str ->
  (T = char -> isAllASCII str = true) ->
  adoptsStorage str optStorage = false ->
  size str <= MAX_STRING_LENGTH -> size str <= UINT32_MAX ->
  createEfficientImpl T str optStorage rt
  = Some (Returned (encodeStringValue (level rt)),
          allocated rt (inlineCell (charIs8Bit T || isAllASCII str) str)).
Proof.
  intros Hlen Hopt Hascii Hadopt Hmax H32.
  assert (Hinline :
    (let isAscii := charIs8Bit T || isAllASCII str in
     if isAscii
     then bind (create (toUInt32 (size str)) isAscii)
            (fun result =>
               let output := getString result in
               bind (copyToASCIIPointerForWrite output str)
                 (fun _ => ret (encodeStringValue output)))
     else createOfRef T str) rt
    = Some (Returned (encodeStringValue (level rt)),
            allocated rt
              (inlineCell (charIs8Bit T || isAllASCII str) str))).
  { cbv zeta. rewrite (toUInt32_small _ H32).
    assert (Hsz : forall T', size str
              = size (contents (DynamicStringPrimitive.newOfLength
                                  T' false (size str) false false))).
    { intros T'. cbn [contents DynamicStringPrimitive.newOfLength].
      symmetry. apply size_repeat. }
    destruct (charIs8Bit T || isAllASCII str) eqn:Easc.
    - unfold bind at 1. rewrite (create_run rt _ true Hmax).
      cbn [getString]. unfold bind at 1.
      unfold copyToASCIIPointerForWrite, bind, deref, assert.
      rewrite allocated_lookup_new.
      change (isASCII (DynamicStringPrimitive.newOfLength char false
                         (size str) false false)) with true.
      cbv iota. unfold writeChars. rewrite allocated_lookup_new.
      rewrite (copyInto_whole _ _ (Hsz char)).
      unfold ret, allocated, setCells, setLevel. cbn [cells level
        externalCredited externalDebited heapCanAllocExternalMemory
        emptyString charStrings thrownValue].
      rewrite insert_insert_eq. reflexivity.
    - unfold createOfRef. rewrite (toUInt32_small _ H32).
      assert (HT : charIs8Bit T = false) by (destruct T; [discriminate|reflexivity]).
      rewrite HT.
      unfold bind at 1. rewrite (create_run rt _ false Hmax).
      cbn [getString]. unfold bind, writeChars.
      rewrite allocated_lookup_new.
      rewrite (copyInto_whole _ _ (Hsz char16_t)).
      unfold ret, allocated, setCells, setLevel. cbn [cells level
        externalCredited externalDebited heapCanAllocExternalMemory
        emptyString charStrings thrownValue].
      rewrite insert_insert_eq. reflexivity. }
  unfold createEfficientImpl.
  assert (Ha : negb (charIs8Bit T) || isAllASCII str = true).
  { destruct T; [rewrite Hascii by reflexivity|]; reflexivity. }
  rewrite Ha.
  assert (Hb : match optStorage with
               | Some storage => bool_decide (str = storage)
               | None => true
               end = true).
  { destruct Hopt as [-> | ->]; [reflexivity|].
    apply bool_decide_eq_true_2. reflexivity. }
  rewrite Hb.
  destruct str as [|a [|b l]];
    [unfold size in Hlen; simpl in Hlen; lia
    |unfold size in Hlen; simpl in Hlen; lia|].
  unfold bind at 1, assert at 1. unfold bind at 1, assert at 1.
  unfold adoptsStorage in Hadopt.
  destruct optStorage as [storage|].
  - rewrite Hadopt. exact Hinline.
  - exact Hinline.
Qed.
End CreateEfficient.

(** C2 (as amended).  For every input span of at most
    [MAX_STRING_LENGTH] code units, [createEfficient] selects its outcome
    in this priority order: the empty span returns the predefined empty
    string and a one-unit span returns the cached single-character string,
    both leaving the runtime untouched; otherwise, when an owned buffer is
    passed and the size is at least [EXTERNAL_STRING_MIN_SIZE], the buffer
    is moved into a new external cell of the source's unit type, plain,
    with a finalizer, and its byte size (the size times the size of a code
    unit, computed in 32 bits) is credited; otherwise a new inline cell
    holds a copy of the span, narrow if the source is 8-bit or all of a
    wide source is ASCII, wide otherwise.  New cells are placed at an
    address that was not live.  Every owned buffer that passes the
    ownership test and is longer than [MAX_STRING_LENGTH] is not
    transferred: the range error "String length exceeds limit" is raised
    and nothing is allocated or credited. *)
Theorem createEfficient_priority `{StringLimits} (rt : Runtime) (T : CharT)
    (str : list CodeUnit) (optStorage : option (list CodeUnit)) :
  heapWf rt ->
  optStorage = None \/ optStorage = Some str ->
  (T = char -> isAllASCII str = true) ->
  adoptsStorage str optStorage = true
  \/ (size str <= MAX_STRING_LENGTH /\ size str <= UINT32_MAX) ->
  createEfficientImpl T str optStorage rt
  = match str with
    | [] => Some (Returned (encodeStringValue (emptyString rt)), rt)
    | [c] => Some (Returned (encodeStringValue (charStrings rt c)), rt)
    | _ =>
        if adoptsStorage str optStorage
        then
          if MAX_STRING_LENGTH <? size str
          then Some (EXCEPTION, raised rt "String length exceeds limit")
          else Some (Returned (encodeStringValue (level rt)),
                     credited (allocated rt (externalCell T str))
                       (ExternalStringPrimitive.allocSize T (size str)))
        else Some (Returned (encodeStringValue (level rt)),
                   allocated rt
                     (inlineCell (charIs8Bit T || isAllASCII str) str))
    end
  /\ cells rt !! level rt = None
  /\ externalCell T str
     = {| cellKind := if charIs8Bit T
                      then ExternalASCIIStringPrimitiveKind
                      else ExternalUTF16StringPrimitiveKind;
          longLived := false; hasFinalizer := true; uniqued := false;
          uniqueID_ := None; contents := str |}
  /\ ExternalStringPrimitive.allocSize T (size str)
     = (N.of_nat (length str) * (if charIs8Bit T then 1 else 2))
       mod 4294967296
  /\ cells (raised rt "String length exceeds limit") = cells rt
  /\ level (raised rt "String length exceeds limit") = level rt
  /\ externalCredited (raised rt "String length exceeds limit")
     = externalCredited rt
  /\ isExternal (externalCell T str) = true
  /\ isASCII (externalCell T str) = charIs8Bit T
  /\ isExternal (inlineCell (charIs8Bit T || isAllASCII str) str) = false
  /\ isASCII (inlineCell (charIs8Bit T || isAllASCII str) str)
     = charIs8Bit T || isAllASCII str.
Proof.
  intros Hwf Hopt Hascii Hsize.
  split; [|split; [apply heapWf_fresh; exact Hwf|]].
  - destruct str as [|a [|b l]] eqn:Estr.
    + apply createEfficientImpl_empty. exact Hopt.
    + apply createEfficientImpl_single; assumption.
    + rewrite <- Estr in *.
      assert (Hlen : 1 < size str)
        by (rewrite Estr; unfold size; simpl; lia).
      destruct (adoptsStorage str optStorage) eqn:Ead.
      * unfold adoptsStorage in Ead.
        destruct Hopt as [-> | ->]; [discriminate|].
        apply N.leb_le in Ead.
        rewrite (createEfficientImpl_adopt rt T str Hlen Hascii Ead).
        destruct (MAX_STRING_LENGTH <? size str) eqn:Emax.
        -- apply ExternalStringPrimitive_create_raise, N.ltb_lt, Emax.
        -- apply ExternalStringPrimitive_create_run, N.ltb_ge, Emax.
      * destruct Hsize as [Habs | [Hmax H32]]; [discriminate|].
        apply createEfficientImpl_inline; assumption.
  - repeat split.
    + destruct T; reflexivity.
    + destruct T; reflexivity.
    + destruct T; reflexivity.
    + destruct T; reflexivity.
    + destruct (charIs8Bit T || isAllASCII str); reflexivity.
    + destruct (charIs8Bit T || isAllASCII str); reflexivity.
Qed.

Lemma createEfficient_priority_witness :
  createEfficientImpl (H := sampleLimits) char16_t asciiBuffer
    (Some asciiBuffer) bootRuntime
  = Some (Returned (encodeStringValue 65537),
          credited (allocated bootRuntime (externalCell char16_t asciiBuffer))
            400)
  /\ createEfficientImpl (H := sampleLimits) char16_t [104; 105; 1000] None
       bootRuntime
     = Some (Returned (encodeStringValue 65537),
             allocated bootRuntime (inlineCell false [104; 105; 1000])).
Proof.
  split.
  - refine (proj1 (createEfficient_priority (H := sampleLimits) bootRuntime
                     char16_t asciiBuffer (Some asciiBuffer)
                     heapWf_bootRuntime _ _ _)).
    + right. reflexivity.
    + discriminate.
    + left. vm_compute. reflexivity.
  - refine (proj1 (createEfficient_priority (H := sampleLimits) bootRuntime
                     char16_t [104; 105; 1000] None
                     heapWf_bootRuntime _ _ _)).
    + left. reflexivity.
    + discriminate.
    + right. split; vm_compute; discriminate.
Defined.

(** C2, counterexample.  An owned 8-bit buffer of 2^28 + 1 ASCII code
    units is at least [EXTERNAL_STRING_MIN_SIZE] long, yet it is not
    transferred into a new external value: [createEfficient] raises the
    range error and the heap is left as it was. *)
Lemma createEfficient_oversize_buffer_raises :
  size oversizeBuffer = 268435457
  /\ isAllASCII oversizeBuffer = true
  /\ createEfficientString (H := sampleLimits) oversizeBuffer bootRuntime
     = Some (EXCEPTION, raised bootRuntime "String length exceeds limit")
  /\ cells (raised bootRuntime "String length exceeds limit")
     = cells bootRuntime.
Proof.
  assert (Hsz : size oversizeBuffer = 268435457) by apply size_repeat.
  assert (Hascii : isAllASCII oversizeBuffer = true)
    by (apply isAllASCII_repeat; reflexivity).
  split; [exact Hsz|]. split; [exact Hascii|]. split; [|reflexivity].
  unfold createEfficientString.
  rewrite (createEfficientImpl_adopt (H := sampleLimits)).
  - apply (ExternalStringPrimitive_create_raise (H := sampleLimits)).
    rewrite Hsz. reflexivity.
  - rewrite Hsz. reflexivity.
  - intros _. exact Hascii.
  - rewrite Hsz. discriminate.
Qed.

(** C10 (as amended).  For every wide source span that is entirely ASCII,
    passed with its owned buffer, of a size that is at least
    [EXTERNAL_STRING_MIN_SIZE] (and at least two code units, shorter spans
    being served by the fast paths first): when the size is at most
    [MAX_STRING_LENGTH], [createEfficient] returns a new external cell of
    the wide kind holding the buffer, the transfer being decided before
    any narrowing scan; every such buffer longer than [MAX_STRING_LENGTH]
    yields the range error "String length exceeds limit" instead of a
    string, and nothing is allocated. *)
Theorem createEfficient_transfer_keeps_wide `{StringLimits} (rt : Runtime)
    (str : list CodeUnit) :
  isAllASCII str = true ->
  EXTERNAL_STRING_MIN_SIZE <= size str -> 1 < size str ->
  if MAX_STRING_LENGTH <? size str
  then
    createEfficientU16String str rt
    = Some (EXCEPTION, raised rt "String length exceeds limit")
    /\ cells (raised rt "String length exceeds limit") = cells rt
    /\ level (raised rt "String length exceeds limit") = level rt
  else
    exists rt',
      createEfficientU16String str rt
      = Some (Returned (encodeStringValue (level rt)), rt')
      /\ cells rt' !! level rt = Some (externalCell char16_t str)
      /\ cellKind (externalCell char16_t str)
         = ExternalUTF16StringPrimitiveKind
      /\ isExternal (externalCell char16_t str) = true
      /\ isASCII (externalCell char16_t str) = false
      /\ contents (externalCell char16_t str) = str.
Proof.
  intros Hascii Hmin Hlen.
  assert (Hrun : createEfficientU16String str rt
                 = ExternalStringPrimitive.create char16_t str rt).
  { unfold createEfficientU16String.
    apply (createEfficientImpl_adopt rt char16_t str Hlen
             (fun _ => Hascii) Hmin). }
  destruct (MAX_STRING_LENGTH <? size str) eqn:Emax.
  - split; [|split; reflexivity]. rewrite Hrun.
    apply ExternalStringPrimitive_create_raise, N.ltb_lt, Emax.
  - exists (credited (allocated rt (externalCell char16_t str))
              (ExternalStringPrimitive.allocSize char16_t (size str))).
    split.
    + rewrite Hrun.
      apply ExternalStringPrimitive_create_run, N.ltb_ge, Emax.
    + split; [apply allocated_lookup_new|]. repeat split.
Qed.

Lemma createEfficient_transfer_keeps_wide_witness :
  exists rt',
    createEfficientU16String (H := sampleLimits) asciiBuffer bootRuntime
    = Some (Returned (encodeStringValue 65537), rt')
    /\ cells rt' !! 65537 = Some (externalCell char16_t asciiBuffer)
    /\ cellKind (externalCell char16_t asciiBuffer)
       = ExternalUTF16StringPrimitiveKind
    /\ isExternal (externalCell char16_t asciiBuffer) = true
    /\ isASCII (externalCell char16_t asciiBuffer) = false
    /\ contents (externalCell char16_t asciiBuffer) = asciiBuffer.
Proof.
  refine (createEfficient_transfer_keeps_wide (H := sampleLimits) bootRuntime
            asciiBuffer _ _ _).
  - vm_compute. reflexivity.
  - vm_compute. discriminate.
  - vm_compute. reflexivity.
Defined.

(** C10, counterexample.  A wide, entirely ASCII owned buffer of 2^28 + 1
    code units is at least [EXTERNAL_STRING_MIN_SIZE] long, yet the result
    is no string at all: the range error is raised. *)
Lemma createEfficient_oversize_wide_buffer_raises :
  size oversizeBuffer = 268435457
  /\ isAllASCII oversizeBuffer = true
  /\ createEfficientU16String (H := sampleLimits) oversizeBuffer bootRuntime
     = Some (EXCEPTION, raised bootRuntime "String length exceeds limit").
Proof.
  assert (Hsz : size oversizeBuffer = 268435457) by apply size_repeat.
  assert (Hascii : isAllASCII oversizeBuffer = true)
    by (apply isAllASCII_repeat; reflexivity).
  split; [exact Hsz|]. split; [exact Hascii|].
  unfold createEfficientU16String.
  rewrite (createEfficientImpl_adopt (H := sampleLimits)).
  - apply (ExternalStringPrimitive_create_raise (H := sampleLimits)).
    rewrite Hsz. reflexivity.
  - rewrite Hsz. reflexivity.
  - discriminate.
  - rewrite Hsz. discriminate.
Qed.

(** ** Failures of the external construction paths *)

Section ExternalFailures.
Context `{StringLimits}.

Lemma ExternalStringPrimitive_createLongLived_run (rt : Runtime)
    (T : CharT) (str : list CodeUnit) (uniqueID : SymbolID) :
  ExternalStringPrimitive.createLongLived T str uniqueID rt
  = if MAX_STRING_LENGTH <? size str
    then Some (EXCEPTION, raised rt "String length exceeds limit")
    else if negb (heapCanAllocExternalMemory rt
                    (ExternalStringPrimitive.allocSize T (size str)))
    then Some (EXCEPTION,
               raised rt "Cannot allocate an external string primitive.")
    else Some (Returned (encodeStringValue (level rt)),
               credited
                 (allocated rt
                    (ExternalStringPrimitive.newUniqued T str uniqueID
                       true true))
                 (ExternalStringPrimitive.allocSize T (size str))).
Proof.
  unfold ExternalStringPrimitive.createLongLived.
  destruct (MAX_STRING_LENGTH <? size str); [reflexivity|].
  unfold bind at 1, canAllocExternalMemory.
  destruct (heapCanAllocExternalMemory rt _); reflexivity.
Qed.

Lemma ExternalStringPrimitive_createOfLength_run (rt : Runtime)
    (T : CharT) (length : N) :
  isExternalLength length = true ->
  ExternalStringPrimitive.createOfLength T length rt
  = if MAX_STRING_LENGTH <? length
    then Some (EXCEPTION, raised rt "String length exceeds limit")
    else if negb (heapCanAllocExternalMemory rt
                    (ExternalStringPrimitive.allocSize T length))
    then Some (EXCEPTION,
               raised rt "Cannot allocate an external string primitive.")
    else Some (Returned (encodeStringValue (level rt)),
               credited
                 (allocated rt
                    (externalCell T (repeat 0 (N.to_nat length))))
                 (ExternalStringPrimitive.allocSize T length)).
Proof.
  intros Hext. unfold ExternalStringPrimitive.createOfLength.
  unfold bind at 1, assert. rewrite Hext.
  destruct (MAX_STRING_LENGTH <? length) eqn:E; [reflexivity|].
  unfold bind at 1, canAllocExternalMemory.
  destruct (heapCanAllocExternalMemory rt _); [|reflexivity].
  cbn [negb]. apply N.ltb_ge in E.
  rewrite ExternalStringPrimitive_create_run
    by (rewrite size_repeat; exact E).
  rewrite size_repeat. reflexivity.
Qed.
End ExternalFailures.

(** C7.  Each of the three construction paths of an external string
    returns a discriminated result.  [create] of a buffer fails exactly
    when the length of the buffer exceeds [MAX_STRING_LENGTH];
    [createLongLived] and [create] of a length fail exactly then or when
    the heap's [canAllocExternalMemory] rejects the byte size computed for
    the request.  Every failure is a range error raised before any
    allocation or credit: heap, allocation pointer and ledger are those of
    the runtime before the call. *)
Theorem external_create_failures `{StringLimits} (rt : Runtime) (T : CharT)
    (str : list CodeUnit) (uniqueID : SymbolID) (length : N) :
  isExternalLength length = true ->
  let tooLong := raised rt "String length exceeds limit" in
  let noBudget := raised rt "Cannot allocate an external string primitive." in
  let admitted (n : N) :=
    heapCanAllocExternalMemory rt (ExternalStringPrimitive.allocSize T n) in
  ExternalStringPrimitive.create T str rt
  = (if MAX_STRING_LENGTH <? size str
     then Some (EXCEPTION, tooLong)
     else Some (Returned (encodeStringValue (level rt)),
                credited (allocated rt (externalCell T str))
                  (ExternalStringPrimitive.allocSize T (size str))))
  /\ ExternalStringPrimitive.createLongLived T str uniqueID rt
     = (if MAX_STRING_LENGTH <? size str
        then Some (EXCEPTION, tooLong)
        else if negb (admitted (size str))
        then Some (EXCEPTION, noBudget)
        else Some (Returned (encodeStringValue (level rt)),
                   credited
                     (allocated rt
                        (ExternalStringPrimitive.newUniqued T str uniqueID
                           true true))
                     (ExternalStringPrimitive.allocSize T (size str))))
  /\ ExternalStringPrimitive.createOfLength T length rt
     = (if MAX_STRING_LENGTH <? length
        then Some (EXCEPTION, tooLong)
        else if negb (admitted length)
        then Some (EXCEPTION, noBudget)
        else Some (Returned (encodeStringValue (level rt)),
                   credited
                     (allocated rt
                        (externalCell T (repeat 0 (N.to_nat length))))
                     (ExternalStringPrimitive.allocSize T length)))
  /\ (forall msg,
        cells (raised rt msg) = cells rt
        /\ level (raised rt msg) = level rt
        /\ externalCredited (raised rt msg) = externalCredited rt
        /\ externalDebited (raised rt msg) = externalDebited rt
        /\ thrownValue (raised rt msg) = Some (RangeError msg)).
Proof.
  intros Hext tooLong noBudget admitted.
  split.
  { destruct (MAX_STRING_LENGTH <? size str) eqn:E.
    - apply ExternalStringPrimitive_create_raise, N.ltb_lt, E.
    - apply ExternalStringPrimitive_create_run, N.ltb_ge, E. }
  split; [apply ExternalStringPrimitive_createLongLived_run|].
  split; [apply ExternalStringPrimitive_createOfLength_run, Hext|].
  intros msg. repeat split.
Qed.

Lemma external_create_failures_witness :
  ExternalStringPrimitive.createOfLength (H := sampleLimits) char16_t
    268435457 bootRuntime
  = Some (EXCEPTION, raised bootRuntime "String length exceeds limit")
  /\ ExternalStringPrimitive.createOfLength (H := sampleLimits) char16_t
       268435456 bootRuntime
     = Some (EXCEPTION,
             raised bootRuntime
               "Cannot allocate an external string primitive.").
Proof.
  split.
  - exact (proj1 (proj2 (proj2
      (external_create_failures (H := sampleLimits) bootRuntime char16_t
         [104; 105] 7 268435457 eq_refl)))).
  - exact (proj1 (proj2 (proj2
      (external_create_failures (H := sampleLimits) bootRuntime char16_t
         [104; 105] 7 268435456 eq_refl)))).
Defined.

(** ** The ledger of external memory *)

Section Ledger.
Context `{StringLimits}.

Lemma allocSize_exact (T : CharT) (n : N) :
  limitsFit -> n <= MAX_STRING_LENGTH ->
  ExternalStringPrimitive.allocSize T n = n * sizeofT T.
Proof.
  unfold limitsFit. intros Hfit Hn.
  unfold ExternalStringPrimitive.allocSize. apply toUInt32_small.
  destruct T; cbn [sizeofT]; lia.
Qed.

Lemma cellByteSize_external (T : CharT) (str : list CodeUnit)
    (isUniq inLongLived hasFin : bool) :
  cellByteSize
    (ExternalStringPrimitive.newWithFlag T str isUniq inLongLived hasFin)
  = size str * sizeofT T.
Proof. destruct T; reflexivity. Qed.

(** A request either raises, leaving heap and ledger alone, or places one
    external cell at the allocation pointer and credits its byte size. *)
Lemma construct_cases (rt : Runtime) (r : ExternalRequest) :
  limitsFit -> requestOk r ->
  (exists msg, construct r rt = Some (EXCEPTION, raised rt msg))
  \/ (exists cell,
        construct r rt
        = Some (Returned (encodeStringValue (level rt)),
                credited (allocated rt cell) (cellByteSize cell))
        /\ isExternal cell = true).
Proof.
  intros Hfit Hok. destruct r as [T str | T str uniqueID | T length];
    cbn [construct].
  - destruct (MAX_STRING_LENGTH <? size str) eqn:E.
    + left. eexists. apply ExternalStringPrimitive_create_raise, N.ltb_lt, E.
    + right. apply N.ltb_ge in E. exists (externalCell T str). split.
      * rewrite ExternalStringPrimitive_create_run by exact E.
        rewrite allocSize_exact by assumption.
        unfold externalCell, ExternalStringPrimitive.new.
        rewrite cellByteSize_external. reflexivity.
      * destruct T; reflexivity.
  - rewrite ExternalStringPrimitive_createLongLived_run.
    destruct (MAX_STRING_LENGTH <? size str) eqn:E; [left; eauto|].
    destruct (negb _); [left; eauto|].
    right. apply N.ltb_ge in E.
    exists (ExternalStringPrimitive.newUniqued T str uniqueID true true).
    split.
    + rewrite allocSize_exact by assumption.
      replace (cellByteSize
                 (ExternalStringPrimitive.newUniqued T str uniqueID
                    true true))
        with (size str * sizeofT T) by (destruct T; reflexivity).
      reflexivity.
    + destruct T; reflexivity.
  - cbn [requestOk] in Hok.
    rewrite ExternalStringPrimitive_createOfLength_run by exact Hok.
    destruct (MAX_STRING_LENGTH <? length) eqn:E; [left; eauto|].
    destruct (negb _); [left; eauto|].
    right. apply N.ltb_ge in E.
    exists (externalCell T (repeat 0 (N.to_nat length))). split.
    + rewrite allocSize_exact by assumption.
      unfold externalCell, ExternalStringPrimitive.new.
      rewrite cellByteSize_external, size_repeat. reflexivity.
    + destruct T; reflexivity.
Qed.

Lemma constructAll_spec (reqs : list ExternalRequest) :
  forall rt : Runtime,
    limitsFit -> heapWf rt -> Forall requestOk reqs ->
    exists objs cs rt1,
      constructAll reqs rt = Some (objs, rt1)
      /\ heapWf rt1
      /\ level rt <= level rt1
      /\ (forall p, p < level rt -> cells rt1 !! p = cells rt !! p)
      /\ externalDebited rt1 = externalDebited rt
      /\ externalCredited rt1
         = externalCredited rt + sumBytes (map snd objs)
      /\ Forall2 (fun o s => cells rt1 !! fst o = Some s
                             /\ isExternal s = true
                             /\ snd o = cellByteSize s
                             /\ level rt <= fst o) objs cs
      /\ NoDup (map fst objs).
Proof.
  induction reqs as [|r reqs IH]; intros rt Hfit Hwf Hok.
  - exists [], [], rt. cbn [constructAll sumBytes map].
    repeat split; try lia; try assumption; constructor.
  - inversion Hok as [|? ? Hr Hrest]; subst.
    cbn [constructAll].
    destruct (construct_cases rt r Hfit Hr) as [[msg Hc] | [cell [Hc Hext]]];
      rewrite Hc.
    + destruct (IH (raised rt msg) Hfit (heapWf_raised _ _ Hwf) Hrest)
        as (objs & cs & rt1 & Hrun & Hwf1 & Hlev & Hframe & Hdeb & Hcred
            & Hobjs & Hnd).
      exists objs, cs, rt1. repeat split; assumption.
    + set (rt' := credited (allocated rt cell) (cellByteSize cell)).
      assert (Hwf' : heapWf rt') by (apply (heapWf_allocated rt cell Hwf)).
      destruct (IH rt' Hfit Hwf' Hrest)
        as (objs & cs & rt1 & Hrun & Hwf1 & Hlev & Hframe & Hdeb & Hcred
            & Hobjs & Hnd).
      rewrite Hrun. cbn [getString].
      assert (Hlev' : level rt' = level rt + 1) by reflexivity.
      assert (Hcr' : externalCredited rt' - externalCredited rt
                     = cellByteSize cell).
      { unfold rt', credited.
        cbn [externalCredited setLedger allocated setCells setLevel]. lia. }
      rewrite Hcr'.
      exists ((level rt, cellByteSize cell) :: objs), (cell :: cs), rt1.
      split; [reflexivity|]. split; [exact Hwf1|].
      split; [lia|].
      split.
      { intros p Hp. rewrite Hframe by lia.
        unfold rt', credited, allocated. cbn [cells setLedger setCells].
        apply lookup_insert_ne. lia. }
      split; [rewrite Hdeb; reflexivity|].
      split.
      { rewrite Hcred. cbn [sumBytes map snd].
        assert (Hc2 : externalCredited rt'
                      = externalCredited rt + cellByteSize cell)
          by reflexivity.
        lia. }
      split.
      { constructor.
        - cbn [fst snd].
          split; [|split; [exact Hext | split; [reflexivity | lia]]].
          rewrite Hframe by lia. apply allocated_lookup_new.
        - eapply Forall2_impl; [exact Hobjs|].
          intros o s (Hp & Hs & Hsz & Hge). repeat split; try assumption.
          lia. }
      cbn [map fst]. constructor; [|exact Hnd].
      intros Hin.
      apply list_elem_of_fmap in Hin as (o & Ho & Hin).
      destruct (proj1 (list_elem_of_lookup objs o) Hin) as [i Hi].
      destruct (Forall2_lookup_l _ _ _ _ _ Hobjs Hi)
        as (s & _ & _ & _ & _ & Hge).
      cbn beta in Hge. unfold Addr in *. lia.
Qed.

Lemma finalizeCell_external (rt : Runtime) (p : Addr)
    (s : StringPrimitive) :
  cells rt !! p = Some s -> isExternal s = true ->
  finalizeCell p rt
  = Some (Returned tt,
          setCells
            (setLedger rt (externalCredited rt)
               (externalDebited rt + cellByteSize s))
            (delete p (cells rt))).
Proof.
  intros Hp Hext. unfold finalizeCell, bind at 1, deref at 1. rewrite Hp.
  unfold isExternal in Hext.
  destruct (cellKind s) eqn:Ek; try discriminate Hext.
  - unfold ExternalStringPrimitive._finalizeImpl,
      ExternalStringPrimitive.vmcast, bind, deref.
    rewrite Hp, Ek. cbn [ExternalKind].
    unfold cellByteSize, kindCharT. rewrite Ek. reflexivity.
  - unfold ExternalStringPrimitive._finalizeImpl,
      ExternalStringPrimitive.vmcast, bind, deref.
    rewrite Hp, Ek. cbn [ExternalKind].
    unfold cellByteSize, kindCharT. rewrite Ek. reflexivity.
Qed.

Lemma finalizeAll_spec (objs : list Addr) :
  forall (cs : list StringPrimitive) (rt1 : Runtime),
    NoDup objs ->
    Forall2 (fun p s => cells rt1 !! p = Some s /\ isExternal s = true)
      objs cs ->
    exists rt2,
      finalizeAll objs rt1 = Some (map cellByteSize cs, rt2)
      /\ externalCredited rt2 = externalCredited rt1
      /\ externalDebited rt2
         = externalDebited rt1 + sumBytes (map cellByteSize cs)
      /\ (forall p, p ∈ objs -> cells rt2 !! p = None)
      /\ (forall p, p ∉ objs -> cells rt2 !! p = cells rt1 !! p).
Proof.
  induction objs as [|p objs IH]; intros cs rt1 Hnd Hall.
  - inversion Hall; subst. exists rt1. cbn [finalizeAll sumBytes map].
    repeat split; try lia.
    intros p Hp. inversion Hp.
  - inversion Hall as [|? s ? cs' [Hp Hext] Hrest]; subst.
    inversion Hnd as [|? ? Hnotin Hnd']; subst.
    cbn [finalizeAll]. rewrite (finalizeCell_external rt1 p s Hp Hext).
    set (rt' := setCells _ (delete p (cells rt1))).
    assert (Hrest' : Forall2
              (fun q s' => cells rt' !! q = Some s' /\ isExternal s' = true)
              objs cs').
    { apply Forall2_same_length_lookup_2.
      - eapply Forall2_length; exact Hrest.
      - intros i q s' Hq Hs'.
        destruct (Forall2_lookup_lr _ _ _ _ _ _ Hrest Hq Hs') as [Hl He].
        split; [|exact He].
        unfold rt'. cbn [cells setCells].
        rewrite lookup_delete_ne; [exact Hl|].
        intros ->. apply Hnotin. eapply list_elem_of_lookup_2; exact Hq. }
    destruct (IH cs' rt' Hnd' Hrest')
      as (rt2 & Hrun & Hcred & Hdeb & Hgone & Hkeep).
    rewrite Hrun.
    assert (Hd' : externalDebited rt' - externalDebited rt1
                  = cellByteSize s).
    { unfold rt'. cbn [externalDebited setCells setLedger]. lia. }
    rewrite Hd'.
    exists rt2. split; [reflexivity|].
    split; [rewrite Hcred; reflexivity|].
    split.
    { rewrite Hdeb. cbn [sumBytes map]. unfold rt'.
      cbn [externalDebited setCells setLedger]. lia. }
    split.
    + intros q Hq. apply elem_of_cons in Hq as [-> | Hq].
      * rewrite Hkeep by exact Hnotin. unfold rt'. cbn [cells setCells].
        apply lookup_delete_eq.
      * apply Hgone, Hq.
    + intros q Hq. apply not_elem_of_cons in Hq as [Hne Hq].
      rewrite Hkeep by exact Hq. unfold rt'. cbn [cells setCells].
      apply lookup_delete_ne. congruence.
Qed.

Lemma Forall2_snd_byteSize (objs : list (Addr * N))
    (cs : list StringPrimitive) (P : Addr * N -> StringPrimitive -> Prop) :
  Forall2 (fun o s => P o s /\ snd o = cellByteSize s) objs cs ->
  map cellByteSize cs = map snd objs.
Proof.
  induction 1 as [|o s objs cs [_ Ho] _ IH]; [reflexivity|].
  cbn [map]. rewrite IH, Ho. reflexivity.
Qed.
End Ledger.

(** C3.  Each external string is credited, at construction, with the byte
    size of its buffer (its length times the size of a code unit) and its
    finalizer debits the byte size read again from the buffer; the two
    agree string by string.  Hence, for any sequence of requests to the
    three construction paths followed by the finalization of every string
    constructed, the bytes credited in total equal the bytes debited in
    total, every constructed string is finalized once and none is left in
    the heap. *)
Theorem external_ledger_balanced `{StringLimits} (rt : Runtime)
    (reqs : list ExternalRequest) :
  limitsFit -> heapWf rt -> Forall requestOk reqs ->
  exists objs rt1 debits rt2,
    constructAll reqs rt = Some (objs, rt1)
    /\ finalizeAll (map fst objs) rt1 = Some (debits, rt2)
    /\ debits = map snd objs
    /\ NoDup (map fst objs)
    /\ Forall (fun o => exists s, cells rt1 !! fst o = Some s
                                  /\ isExternal s = true
                                  /\ snd o = getStringLength s
                                             * sizeofT (kindCharT (cellKind s)))
         objs
    /\ externalCredited rt1 = externalCredited rt + sumBytes (map snd objs)
    /\ externalDebited rt1 = externalDebited rt
    /\ externalCredited rt2 = externalCredited rt1
    /\ externalDebited rt2 = externalDebited rt1 + sumBytes debits
    /\ externalCredited rt2 - externalCredited rt
       = externalDebited rt2 - externalDebited rt
    /\ (forall p, p ∈ map fst objs -> cells rt2 !! p = None).
Proof.
  intros Hfit Hwf Hok.
  destruct (constructAll_spec reqs rt Hfit Hwf Hok)
    as (objs & cs & rt1 & Hrun & Hwf1 & Hlev & Hframe & Hdeb & Hcred
        & Hobjs & Hnd).
  assert (Hobjs' : Forall2
            (fun p s => cells rt1 !! p = Some s /\ isExternal s = true)
            (map fst objs) cs).
  { apply Forall2_fmap_l. eapply Forall2_impl; [exact Hobjs|].
    intros o s (Hp & Hs & _). auto. }
  assert (Hsizes : map cellByteSize cs = map snd objs).
  { apply (Forall2_snd_byteSize objs cs
             (fun o s => cells rt1 !! fst o = Some s /\ isExternal s = true)).
    eapply Forall2_impl; [exact Hobjs|].
    intros o s (Hp & Hs & Hsz & _). auto. }
  destruct (finalizeAll_spec (map fst objs) cs rt1 Hnd Hobjs')
    as (rt2 & Hfin & Hcred2 & Hdeb2 & Hgone & _).
  rewrite Hsizes in Hfin, Hdeb2.
  exists objs, rt1, (map snd objs), rt2.
  split; [exact Hrun|]. split; [exact Hfin|]. split; [reflexivity|].
  split; [exact Hnd|].
  split.
  { apply Forall_forall. intros o Hin.
    destruct (proj1 (list_elem_of_lookup objs o) Hin) as [i Hi].
    destruct (Forall2_lookup_l _ _ _ _ _ Hobjs Hi)
      as (s & _ & Hp & Hs & Hsz & _).
    exists s. repeat split; assumption. }
  repeat (split; [assumption|]).
  split; [lia | exact Hgone].
Qed.

Lemma external_ledger_balanced_witness :
  exists objs rt1 debits rt2,
    constructAll (H := sampleLimits) sampleRequests bootRuntime
    = Some (objs, rt1)
    /\ finalizeAll (map fst objs) rt1 = Some (debits, rt2)
    /\ debits = map snd objs
    /\ NoDup (map fst objs)
    /\ Forall (fun o => exists s, cells rt1 !! fst o = Some s
                                  /\ isExternal s = true
                                  /\ snd o = getStringLength s
                                             * sizeofT (kindCharT (cellKind s)))
         objs
    /\ externalCredited rt1
       = externalCredited bootRuntime + sumBytes (map snd objs)
    /\ externalDebited rt1 = externalDebited bootRuntime
    /\ externalCredited rt2 = externalCredited rt1
    /\ externalDebited rt2 = externalDebited rt1 + sumBytes debits
    /\ externalCredited rt2 - externalCredited bootRuntime
       = externalDebited rt2 - externalDebited bootRuntime
    /\ (forall p, p ∈ map fst objs -> cells rt2 !! p = None).
Proof.
  refine (external_ledger_balanced (H := sampleLimits) bootRuntime
            sampleRequests _ heapWf_bootRuntime _).
  - vm_compute. discriminate.
  - repeat constructor.
Defined.

(** ** Strings of length zero *)









(** ** The comparator *)

Ltac caseUnits x y :=
  let E1 := fresh "E" in
  let E2 := fresh "E" in
  destruct (x <? y) eqn:E1; destruct (y <? x) eqn:E2;
  try (apply N.ltb_lt in E1); try (apply N.ltb_lt in E2);
  try (apply N.ltb_ge in E1); try (apply N.ltb_ge in E2);
  try lia.

Lemma stringRefCompare_range (u v : list CodeUnit) :
  (stringRefCompare u v = -1 \/ stringRefCompare u v = 0
   \/ stringRefCompare u v = 1)%Z.
Proof.
  revert v. induction u as [|x u IH]; intros [|y v]; cbn [stringRefCompare];
    auto.
  destruct (x <? y); [auto|]. destruct (y <? x); [auto|]. apply IH.
Qed.

Lemma stringRefCompare_flip (u v : list CodeUnit) :
  stringRefCompare v u = (- stringRefCompare u v)%Z.
Proof.
  revert v. induction u as [|x u IH]; intros [|y v]; cbn [stringRefCompare];
    try reflexivity.
  caseUnits x y; try reflexivity. apply IH.
Qed.

Lemma stringRefCompare_zero (u v : list CodeUnit) :
  stringRefCompare u v = 0%Z <-> u = v.
Proof.
  revert v. induction u as [|x u IH]; intros [|y v]; cbn [stringRefCompare];
    try (split; [discriminate | discriminate]); try (split; reflexivity).
  caseUnits x y; try (split; [discriminate | intros [= ? ?]; lia]).
  rewrite IH. assert (x = y) by lia. subst.
  split; [intros ->; reflexivity | intros [= ->]; reflexivity].
Qed.

Lemma stringRefCompare_trans (u v w : list CodeUnit) :
  (stringRefCompare u v <= 0)%Z -> (stringRefCompare v w <= 0)%Z ->
  (stringRefCompare u w <= 0)%Z.
Proof.
  revert v w. induction u as [|x u IH]; intros [|y v] [|z w];
    cbn [stringRefCompare]; try lia.
  caseUnits x y; caseUnits y z; caseUnits x z; try lia.
  apply IH.
Qed.

Lemma stringRefCompare_less (u v : list CodeUnit) :
  (stringRefCompare u v < 0)%Z <-> lexLess u v.
Proof.
  revert v. induction u as [|x u IH]; intros [|y v]; cbn [stringRefCompare].
  - split; [lia|]. intros [(p & a & b & u' & v' & Hu & _) | (b & v' & Hv)].
    + destruct p; discriminate.
    + discriminate.
  - split; [|lia]. intros _. right. exists y, v. reflexivity.
  - split; [lia|]. intros [(p & a & b & u' & v' & _ & Hv & _) | (b & v' & Hv)].
    + destruct p; discriminate.
    + discriminate.
  - caseUnits x y.
    + split; [|lia]. intros _. left. exists [], x, y, u, v. auto.
    + split; [lia|].
      intros [(p & a & b & u' & v' & Hu & Hv & Hab) | (b & v' & Hv)].
      * destruct p as [|c p]; cbn [app] in Hu, Hv.
        -- injection Hu as -> ->. injection Hv as -> ->. lia.
        -- injection Hu as -> ->. injection Hv as <- ->. lia.
      * cbn [app] in Hv. injection Hv as -> ->. lia.
    + assert (x = y) by lia. subst y. rewrite IH. split.
      * intros [(p & a & b & u' & v' & Hu & Hv & Hab) | (b & v' & Hv)].
        -- left. exists (x :: p), a, b, u', v'. subst. auto.
        -- right. exists b, v'. subst. reflexivity.
      * intros [(p & a & b & u' & v' & Hu & Hv & Hab) | (b & v' & Hv)].
        -- destruct p as [|c p]; cbn [app] in Hu, Hv.
           ++ injection Hu as -> ->. injection Hv as -> ->. lia.
           ++ injection Hu as -> ->. injection Hv as ->.
              left. exists p, a, b, u', v'. auto.
        -- cbn [app] in Hv. injection Hv as ->.
           right. exists b, v'. reflexivity.
Qed.

Lemma unitsEqual_eq (u v : list CodeUnit) : unitsEqual u v = true <-> u = v.
Proof.
  revert v. induction u as [|x u IH]; intros [|y v]; cbn [unitsEqual];
    try (split; [discriminate | discriminate]); try (split; reflexivity).
  rewrite andb_true_iff, N.eqb_eq, IH.
  split; [intros [-> ->]; reflexivity | intros [= -> ->]; auto].
Qed.

Lemma stringRefEquals_eq (u v : list CodeUnit) :
  stringRefEquals u v = true <-> u = v.
Proof.
  unfold stringRefEquals. destruct (size u =? size v) eqn:E.
  - apply unitsEqual_eq.
  - apply N.eqb_neq in E. split; [discriminate|]. intros ->. contradiction.
Qed.

Lemma stringRefEquals_compare (u v : list CodeUnit) :
  stringRefEquals u v = bool_decide (stringRefCompare u v = 0%Z).
Proof.
  destruct (stringRefEquals u v) eqn:E.
  - apply stringRefEquals_eq in E. symmetry. apply bool_decide_eq_true_2.
    apply stringRefCompare_zero, E.
  - symmetry. apply bool_decide_eq_false_2. intros Hz.
    apply stringRefCompare_zero, stringRefEquals_eq in Hz. congruence.
Qed.

Lemma compareCells_eq (sa sb : StringPrimitive) :
  compareCells sa sb = Some (stringRefCompare (contents sa) (contents sb)).
Proof.
  unfold compareCells, castToASCIIRef, castToUTF16Ref.
  destruct (isASCII sa), (isASCII sb); reflexivity.
Qed.

Lemma sliceEquals_whole (sa sb : StringPrimitive) :
  sliceEquals sa 0 (getStringLength sa) sb
  = Some (stringRefEquals (contents sa) (contents sb)).
Proof.
  assert (Hw : window 0 (getStringLength sa) (contents sa)
               = Some (contents sa)).
  { rewrite window_eq by (unfold getStringLength, size; lia).
    change (N.to_nat 0) with 0%nat. rewrite drop_0.
    rewrite take_ge; [reflexivity|]. unfold getStringLength. lia. }
  unfold sliceEquals, castToASCIIRefAt, castToUTF16RefAt, castToASCIIRef,
    castToUTF16Ref.
  destruct (isASCII sa), (isASCII sb); rewrite Hw; reflexivity.
Qed.

(** C4.  For strings [a], [b], [c] in any combination of encodings,
    [compare] returns a signed three-way result, -1, 0 or 1, that depends
    only on the code-unit values: it is negative exactly when the first
    span is lexicographically smaller, zero exactly when the spans are
    equal; swapping the operands negates it (so two strings each not above
    the other compare equal), it is transitive, and [equals] returns true
    exactly when [compare] returns zero. *)
Theorem compare_total_order (rt : Runtime) (a b c : Addr)
    (sa sb sc : StringPrimitive) :
  cells rt !! a = Some sa -> cells rt !! b = Some sb ->
  cells rt !! c = Some sc ->
  exists ab ba bc ac : Z,
    compare rt a b = Some ab /\ compare rt b a = Some ba
    /\ compare rt b c = Some bc /\ compare rt a c = Some ac
    /\ (ab = -1 \/ ab = 0 \/ ab = 1)%Z
    /\ ba = (- ab)%Z
    /\ ((ab <= 0)%Z -> (ba <= 0)%Z -> ab = 0%Z)
    /\ ((ab <= 0)%Z -> (bc <= 0)%Z -> (ac <= 0)%Z)
    /\ ((ab < 0)%Z <-> lexLess (contents sa) (contents sb))
    /\ (ab = 0%Z <-> contents sa = contents sb)
    /\ equals rt a b = Some (bool_decide (ab = 0%Z)).
Proof.
  intros Ha Hb Hc.
  exists (stringRefCompare (contents sa) (contents sb)),
    (stringRefCompare (contents sb) (contents sa)),
    (stringRefCompare (contents sb) (contents sc)),
    (stringRefCompare (contents sa) (contents sc)).
  unfold compare. rewrite Ha, Hb, Hc. cbn [mbind option_bind].
  rewrite !compareCells_eq.
  repeat (split; [reflexivity|]).
  split; [apply stringRefCompare_range|].
  split; [apply stringRefCompare_flip|].
  split.
  { rewrite (stringRefCompare_flip (contents sa) (contents sb)). lia. }
  split; [apply stringRefCompare_trans|].
  split; [apply stringRefCompare_less|].
  split; [apply stringRefCompare_zero|].
  unfold equals. rewrite Ha. cbn [mbind option_bind].
  destruct (bool_decide (a = b)) eqn:Eab.
  - apply bool_decide_eq_true_1 in Eab. subst b.
    assert (sb = sa) by congruence. subst sb.
    f_equal. symmetry. apply bool_decide_eq_true_2.
    apply stringRefCompare_zero. reflexivity.
  - rewrite Hb. cbn [mbind option_bind].
    rewrite sliceEquals_whole, stringRefEquals_compare. reflexivity.
Qed.

Lemma compare_total_order_witness :
  exists ab ba bc ac : Z,
    compare cafeRuntime 65537 65538 = Some ab
    /\ compare cafeRuntime 65538 65537 = Some ba
    /\ compare cafeRuntime 65538 0 = Some bc
    /\ compare cafeRuntime 65537 0 = Some ac
    /\ (ab = -1 \/ ab = 0 \/ ab = 1)%Z
    /\ ba = (- ab)%Z
    /\ ((ab <= 0)%Z -> (ba <= 0)%Z -> ab = 0%Z)
    /\ ((ab <= 0)%Z -> (bc <= 0)%Z -> (ac <= 0)%Z)
    /\ ((ab < 0)%Z <-> lexLess (contents cafeNarrow) (contents cafeWide))
    /\ (ab = 0%Z <-> contents cafeNarrow = contents cafeWide)
    /\ equals cafeRuntime 65537 65538 = Some (bool_decide (ab = 0%Z)).
Proof.
  refine (compare_total_order cafeRuntime 65537 65538 0
            cafeNarrow cafeWide (predefinedCell 0 []) _ _ _).
  - vm_compute. reflexivity.
  - vm_compute. reflexivity.
  - vm_compute. reflexivity.
Defined.

(** * Further properties *)

(** ** Heaps only grow *)

Lemma heapExtends_refl (rt : Runtime) : heapExtends rt rt.
Proof. intros p s Hp. exact Hp. Qed.

Lemma heapExtends_trans (rt1 rt2 rt3 : Runtime) :
  heapExtends rt1 rt2 -> heapExtends rt2 rt3 -> heapExtends rt1 rt3.
Proof. intros H12 H23 p s Hp. apply H23, H12, Hp. Qed.

Lemma heapExtends_allocated (rt : Runtime) (cell : StringPrimitive) :
  heapWf rt -> heapExtends rt (allocated rt cell).
Proof. intros Hwf p s Hp. apply allocated_lookup_old; assumption. Qed.

Lemma heapExtends_raised (rt : Runtime) (msg : string) :
  heapExtends rt (raised rt msg).
Proof. intros p s Hp. exact Hp. Qed.

Lemma window_all (cs : list CodeUnit) :
  window 0 (N.of_nat (length cs)) cs = Some cs.
Proof.
  rewrite window_eq by (unfold size; lia).
  change (N.to_nat 0) with 0%nat. rewrite drop_0.
  rewrite take_ge; [reflexivity | lia].
Qed.

Lemma stringRefEquals_decide (u v : list CodeUnit) :
  stringRefEquals u v = bool_decide (u = v).
Proof.
  destruct (stringRefEquals u v) eqn:E.
  - apply stringRefEquals_eq in E. symmetry. apply bool_decide_eq_true_2, E.
  - symmetry. apply bool_decide_eq_false_2. intros Huv.
    apply stringRefEquals_eq in Huv. congruence.
Qed.

Lemma sliceEquals_run (self other : StringPrimitive) (start length : N) :
  start + length <= getStringLength self ->
  sliceEquals self start length other
  = Some (bool_decide
            (take (N.to_nat length) (drop (N.to_nat start) (contents self))
             = contents other)).
Proof.
  intros Hwin.
  assert (Hw : window start length (contents self)
               = Some (take (N.to_nat length)
                         (drop (N.to_nat start) (contents self))))
    by (apply window_eq; exact Hwin).
  unfold sliceEquals, castToASCIIRefAt, castToUTF16RefAt, castToASCIIRef,
    castToUTF16Ref.
  destruct (isASCII self), (isASCII other); rewrite Hw;
    cbn [mbind option_bind]; rewrite stringRefEquals_decide; reflexivity.
Qed.

Lemma equals_contents (rt : Runtime) (a b : Addr) (sa sb : StringPrimitive) :
  cells rt !! a = Some sa -> cells rt !! b = Some sb ->
  equals rt a b = Some (bool_decide (contents sa = contents sb)).
Proof.
  intros Ha Hb. unfold equals. rewrite Ha. cbn [mbind option_bind].
  destruct (bool_decide (a = b)) eqn:Eab.
  - apply bool_decide_eq_true_1 in Eab. subst b.
    assert (sb = sa) by congruence. subst sb.
    rewrite bool_decide_eq_true_2 by reflexivity. reflexivity.
  - rewrite Hb. cbn [mbind option_bind].
    rewrite sliceEquals_whole, stringRefEquals_decide. reflexivity.
Qed.

Lemma compare_contents (rt : Runtime) (a b : Addr) (sa sb : StringPrimitive) :
  cells rt !! a = Some sa -> cells rt !! b = Some sb ->
  compare rt a b = Some (stringRefCompare (contents sa) (contents sb)).
Proof.
  intros Ha Hb. unfold compare. rewrite Ha, Hb. cbn [mbind option_bind].
  apply compareCells_eq.
Qed.

(** ** Windows compared in place *)

(** X1.  For a window inside the string, [sliceEquals] returns true
    exactly when the other string has the length of the window and holds,
    index by index, the code units of the window, whatever the encodings of
    the two strings. *)
Theorem sliceEquals_window (self other : StringPrimitive)
    (start length : N) :
  start + length <= getStringLength self ->
  exists b,
    sliceEquals self start length other = Some b
    /\ (b = true <->
        getStringLength other = length
        /\ forall i : nat, N.of_nat i < length ->
             contents other !! i = contents self !! (N.to_nat start + i)%nat).
Proof.
  intros Hwin. eexists. split; [apply sliceEquals_run; exact Hwin|].
  rewrite bool_decide_eq_true.
  unfold getStringLength in *. split.
  - intros Heq. rewrite <- Heq. split.
    + rewrite length_take, length_drop. lia.
    + intros i Hi. rewrite lookup_take_lt by lia. apply lookup_drop.
  - intros [Hlen Hunits]. apply list_eq. intros i.
    destruct (decide (N.of_nat i < length)) as [Hi|Hi].
    + rewrite lookup_take_lt by lia. rewrite lookup_drop.
      symmetry. apply Hunits, Hi.
    + rewrite lookup_take_ge by lia.
      symmetry. apply lookup_ge_None. lia.
Qed.

Lemma sliceEquals_window_witness :
  exists b,
    sliceEquals helloSample 6 5
      (plainCell DynamicUTF16StringPrimitiveKind [119; 111; 114; 108; 100])
    = Some b
    /\ (b = true <->
        getStringLength
          (plainCell DynamicUTF16StringPrimitiveKind
             [119; 111; 114; 108; 100]) = 5
        /\ forall i : nat, N.of_nat i < 5 ->
             contents
               (plainCell DynamicUTF16StringPrimitiveKind
                  [119; 111; 114; 108; 100]) !! i
             = contents helloSample !! (N.to_nat 6 + i)%nat).
Proof.
  refine (sliceEquals_window helloSample _ 6 5 _).
  vm_compute. discriminate.
Defined.

(** ** Slices and their parent *)

Lemma length_zero_nil (s : StringPrimitive) :
  getStringLength s = 0 -> contents s = [].
Proof.
  unfold getStringLength. destruct (contents s); [reflexivity|].
  simpl. lia.
Qed.

Lemma take_drop_whole (cs : list CodeUnit) (start length : N) :
  start + length <= N.of_nat (List.length cs) ->
  take (N.to_nat length) (drop (N.to_nat start) cs) = cs
  <-> start = 0 /\ length = N.of_nat (List.length cs).
Proof.
  intros Hwin. split.
  - intros Heq.
    assert (Hlen : List.length (take (N.to_nat length)
                                  (drop (N.to_nat start) cs))
                   = List.length cs) by (rewrite Heq; reflexivity).
    rewrite length_take, length_drop in Hlen. lia.
  - intros [-> ->]. change (N.to_nat 0) with 0%nat. rewrite drop_0.
    apply take_ge. lia.
Qed.

Section SliceMore.
Context `{StringLimits}.

Lemma slice_raise (rt : Runtime) (str : Addr) (s : StringPrimitive)
    (start length : N) :
  cells rt !! str = Some s ->
  start + length <= getStringLength s ->
  MAX_STRING_LENGTH < length \/ UINT32_MAX < length ->
  slice str start length rt
  = Some (EXCEPTION, raised rt "String length exceeds limit").
Proof.
  intros Hs Hwin Hbig.
  unfold slice. unfold bind at 1, deref at 1. rewrite Hs.
  unfold bind at 1, assert at 1.
  destruct (start + length <=? getStringLength s) eqn:E;
    [|apply N.leb_gt in E; lia].
  unfold bind at 1.
  rewrite (createStringBuilder_raise rt length _ Hbig). reflexivity.
Qed.
End SliceMore.

(** X2.  The string returned by [slice] is never the parent instance; it
    holds the window ([sliceEquals] of the parent against it is true), and
    [equals] finds it equal to the parent exactly when the window is the
    whole string. *)
Theorem slice_copy_equals_parent `{StringLimits} (rt : Runtime) (str : Addr)
    (s : StringPrimitive) (start length : N) :
  heapWf rt -> cells rt !! str = Some s -> stringWf s ->
  start + length <= getStringLength s ->
  exists p rt' r,
    slice str start length rt = Some (Returned (encodeStringValue p), rt')
    /\ cells rt' !! p = Some r
    /\ p <> str
    /\ sliceEquals s start length r = Some true
    /\ equals rt' p str
       = Some (bool_decide (start = 0 /\ length = getStringLength s)).
Proof.
  intros Hwf Hs [Hmax H32] Hwin.
  exists (level rt), (allocated rt (sliceCell s start length)),
    (sliceCell s start length).
  assert (Hp : cells (allocated rt (sliceCell s start length)) !! level rt
               = Some (sliceCell s start length))
    by apply allocated_lookup_new.
  assert (Hs' : cells (allocated rt (sliceCell s start length)) !! str
                = Some s) by (apply allocated_lookup_old; assumption).
  split; [apply slice_run; try assumption; lia|].
  split; [exact Hp|].
  split.
  { pose proof (heapWf_lookup _ _ _ Hwf Hs). unfold Addr in *. lia. }
  split.
  { rewrite sliceEquals_run by exact Hwin.
    rewrite bool_decide_eq_true_2; reflexivity. }
  rewrite (equals_contents _ _ _ _ _ Hp Hs'). f_equal.
  apply bool_decide_ext. unfold sliceCell, getStringLength in *.
  cbn [contents]. apply take_drop_whole. exact Hwin.
Qed.

Lemma slice_copy_equals_parent_witness :
  exists p rt' r,
    slice (H := sampleLimits) 65537 6 5 helloRuntime
    = Some (Returned (encodeStringValue p), rt')
    /\ cells rt' !! p = Some r
    /\ p <> 65537
    /\ sliceEquals helloSample 6 5 r = Some true
    /\ equals rt' p 65537
       = Some (bool_decide (6 = 0 /\ 5 = getStringLength helloSample)).
Proof.
  assert (Hwf : heapWf helloRuntime)
    by (apply heapWf_decide; vm_compute; reflexivity).
  assert (Hs : cells helloRuntime !! 65537 = Some helloSample)
    by (vm_compute; reflexivity).
  assert (Hswf : stringWf (H := sampleLimits) helloSample)
    by (split; vm_compute; discriminate).
  assert (Hwin : 6 + 5 <= getStringLength helloSample)
    by (vm_compute; discriminate).
  exact (slice_copy_equals_parent (H := sampleLimits) helloRuntime 65537
           helloSample 6 5 Hwf Hs Hswf Hwin).
Defined.

(** X3.  For a window inside the string, [slice] always returns: it
    raises the range error exactly when the requested length exceeds
    [MAX_STRING_LENGTH] or does not fit 32 bits, and returns a string
    otherwise.  Either way every string live before the call is live and
    unchanged after it, the heap stays well formed and the ledger of
    external memory is not touched. *)
Theorem slice_total `{StringLimits} (rt : Runtime) (str : Addr)
    (s : StringPrimitive) (start length : N) :
  heapWf rt -> cells rt !! str = Some s ->
  start + length <= getStringLength s ->
  exists r rt',
    slice str start length rt = Some (r, rt')
    /\ (r = EXCEPTION <-> MAX_STRING_LENGTH < length \/ UINT32_MAX < length)
    /\ heapWf rt' /\ heapExtends rt rt'
    /\ externalCredited rt' = externalCredited rt
    /\ externalDebited rt' = externalDebited rt.
Proof.
  intros Hwf Hs Hwin.
  destruct (N.le_gt_cases length MAX_STRING_LENGTH) as [Hle|Hgt];
    [destruct (N.le_gt_cases length UINT32_MAX) as [Hle32|Hgt32]|].
  - eexists _, _. split; [apply slice_run; eassumption|].
    split; [split; [discriminate | lia]|].
    split; [apply heapWf_allocated, Hwf|].
    split; [apply heapExtends_allocated, Hwf|]. split; reflexivity.
  - eexists _, _. split; [apply (slice_raise rt str s); auto|].
    split; [split; auto|].
    split; [apply heapWf_raised, Hwf|].
    split; [apply heapExtends_raised|]. split; reflexivity.
  - eexists _, _. split; [apply (slice_raise rt str s); auto|].
    split; [split; auto|].
    split; [apply heapWf_raised, Hwf|].
    split; [apply heapExtends_raised|]. split; reflexivity.
Qed.

Lemma slice_total_witness :
  exists r rt',
    slice (H := sampleLimits) 65537 0 268435456 maximalRuntime = Some (r, rt')
    /\ (r = EXCEPTION <->
        MAX_STRING_LENGTH (StringLimits := sampleLimits) < 268435456
        \/ UINT32_MAX < 268435456)
    /\ heapWf rt' /\ heapExtends maximalRuntime rt'
    /\ externalCredited rt' = externalCredited maximalRuntime
    /\ externalDebited rt' = externalDebited maximalRuntime.
Proof.
  assert (Hwf : heapWf maximalRuntime).
  { unfold maximalRuntime.
    apply heapWf_allocated, heapWf_allocated, heapWf_bootRuntime. }
  assert (Hlen : getStringLength maximalSample = 268435456).
  { unfold getStringLength, maximalSample, plainCell. cbn [contents].
    rewrite repeat_length. apply N2Nat.id. }
  assert (Hs : cells maximalRuntime !! 65537 = Some maximalSample).
  { unfold maximalRuntime, allocated.
    cbn [cells level setCells setLevel bootRuntime].
    rewrite lookup_insert_ne by discriminate. apply lookup_insert_eq. }
  refine (slice_total (H := sampleLimits) maximalRuntime 65537 maximalSample
            0 268435456 Hwf Hs _).
  rewrite Hlen. discriminate.
Defined.

(** ** Concatenation as an operation on contents *)

Section ConcatMore.
Context `{StringLimits}.

(** Within the limit, [concat] returns a string holding the units of the
    first operand followed by those of the second, also on the paths
    that hand an operand back. *)
Lemma concat_effect (rt : Runtime) (x y : Addr) (sx sy : StringPrimitive) :
  heapWf rt ->
  cells rt !! x = Some sx -> cells rt !! y = Some sy ->
  getStringLength sx + getStringLength sy <= MAX_STRING_LENGTH ->
  getStringLength sx + getStringLength sy <= UINT32_MAX ->
  exists p rt' c,
    concat x y rt = Some (Returned (encodeStringValue p), rt')
    /\ heapWf rt' /\ heapExtends rt rt'
    /\ cells rt' !! p = Some c
    /\ contents c = contents sx ++ contents sy.
Proof.
  intros Hwf Hx Hy Hmax H32.
  destruct (N.eq_dec (getStringLength sx) 0) as [Hzx|Hnx].
  { exists y, rt, sy.
    split; [apply (concat_empty_left rt x y sx sy); assumption|].
    split; [exact Hwf|]. split; [apply heapExtends_refl|].
    split; [exact Hy|]. rewrite (length_zero_nil sx Hzx). reflexivity. }
  destruct (N.eq_dec (getStringLength sy) 0) as [Hzy|Hny].
  { exists x, rt, sx.
    split; [apply (concat_empty_right rt x y sx sy); assumption|].
    split; [exact Hwf|]. split; [apply heapExtends_refl|].
    split; [exact Hx|]. rewrite (length_zero_nil sy Hzy), app_nil_r.
    reflexivity. }
  exists (level rt), (allocated rt (concatCell sx sy)), (concatCell sx sy).
  split; [apply (concat_run rt x y sx sy); assumption|].
  split; [apply heapWf_allocated, Hwf|].
  split; [apply heapExtends_allocated, Hwf|].
  split; [apply allocated_lookup_new | reflexivity].
Qed.
End ConcatMore.

(** X4.  For any two live strings [concat] always returns, and it raises
    the range error exactly when both operands are non-empty and their
    lengths sum above [MAX_STRING_LENGTH] (or beyond 32 bits): an empty
    operand never makes it fail.  A returned string holds the code units
    of the first operand followed by those of the second, on the paths
    that hand back an operand too.  Every string live before the call is
    live and unchanged after it, the heap stays well formed and the ledger
    of external memory is not touched. *)
Theorem concat_total `{StringLimits} (rt : Runtime) (x y : Addr)
    (sx sy : StringPrimitive) :
  heapWf rt -> cells rt !! x = Some sx -> cells rt !! y = Some sy ->
  exists r rt',
    concat x y rt = Some (r, rt')
    /\ (r = EXCEPTION <->
        getStringLength sx <> 0 /\ getStringLength sy <> 0
        /\ (MAX_STRING_LENGTH < getStringLength sx + getStringLength sy
            \/ UINT32_MAX < getStringLength sx + getStringLength sy))
    /\ match r with
       | Returned v =>
           exists c, cells rt' !! getString v = Some c
                     /\ contents c = contents sx ++ contents sy
       | EXCEPTION => cells rt' = cells rt
       end
    /\ heapWf rt' /\ heapExtends rt rt'
    /\ externalCredited rt' = externalCredited rt
    /\ externalDebited rt' = externalDebited rt.
Proof.
  intros Hwf Hx Hy.
  destruct (N.eq_dec (getStringLength sx) 0) as [Hzx|Hnx].
  { exists (Returned (encodeStringValue y)), rt.
    split; [apply (concat_empty_left rt x y sx sy); assumption|].
    split; [split; [discriminate | intros (Hn & _); contradiction]|].
    split.
    { exists sy. split; [exact Hy|].
      rewrite (length_zero_nil sx Hzx). reflexivity. }
    split; [exact Hwf|]. split; [apply heapExtends_refl|].
    split; reflexivity. }
  destruct (N.eq_dec (getStringLength sy) 0) as [Hzy|Hny].
  { exists (Returned (encodeStringValue x)), rt.
    split; [apply (concat_empty_right rt x y sx sy); assumption|].
    split; [split; [discriminate | intros (_ & Hn & _); contradiction]|].
    split.
    { exists sx. split; [exact Hx|].
      rewrite (length_zero_nil sy Hzy), app_nil_r. reflexivity. }
    split; [exact Hwf|]. split; [apply heapExtends_refl|].
    split; reflexivity. }
  destruct (N.le_gt_cases (getStringLength sx + getStringLength sy)
              MAX_STRING_LENGTH) as [Hle|Hgt];
    [destruct (N.le_gt_cases (getStringLength sx + getStringLength sy)
                 UINT32_MAX) as [Hle32|Hgt32]|].
  - exists (Returned (encodeStringValue (level rt))),
      (allocated rt (concatCell sx sy)).
    split; [apply (concat_run rt x y sx sy); assumption|].
    split; [split; [discriminate | intros (_ & _ & Hbig); lia]|].
    split.
    { exists (concatCell sx sy).
      split; [apply allocated_lookup_new | reflexivity]. }
    split; [apply heapWf_allocated, Hwf|].
    split; [apply heapExtends_allocated, Hwf|]. split; reflexivity.
  - exists EXCEPTION, (raised rt "String length exceeds limit").
    split; [apply (concat_raise rt x y sx sy); auto|].
    split; [split; auto|]. split; [reflexivity|].
    split; [apply heapWf_raised, Hwf|].
    split; [apply heapExtends_raised|]. split; reflexivity.
  - exists EXCEPTION, (raised rt "String length exceeds limit").
    split; [apply (concat_raise rt x y sx sy); auto|].
    split; [split; auto|]. split; [reflexivity|].
    split; [apply heapWf_raised, Hwf|].
    split; [apply heapExtends_raised|]. split; reflexivity.
Qed.

Lemma concat_total_witness :
  exists r rt',
    concat (H := sampleLimits) 0 65537 maximalRuntime = Some (r, rt')
    /\ (r = EXCEPTION <->
        getStringLength (predefinedCell 0 []) <> 0
        /\ getStringLength maximalSample <> 0
        /\ (MAX_STRING_LENGTH (StringLimits := sampleLimits)
            < getStringLength (predefinedCell 0 [])
              + getStringLength maximalSample
            \/ UINT32_MAX
               < getStringLength (predefinedCell 0 [])
                 + getStringLength maximalSample))
    /\ match r with
       | Returned v =>
           exists c, cells rt' !! getString v = Some c
                     /\ contents c
                        = contents (predefinedCell 0 [])
                          ++ contents maximalSample
       | EXCEPTION => cells rt' = cells maximalRuntime
       end
    /\ heapWf rt' /\ heapExtends maximalRuntime rt'
    /\ externalCredited rt' = externalCredited maximalRuntime
    /\ externalDebited rt' = externalDebited maximalRuntime.
Proof.
  assert (Hwf : heapWf maximalRuntime).
  { unfold maximalRuntime.
    apply heapWf_allocated, heapWf_allocated, heapWf_bootRuntime. }
  assert (Hy : cells maximalRuntime !! 65537 = Some maximalSample).
  { unfold maximalRuntime, allocated.
    cbn [cells level setCells setLevel bootRuntime].
    rewrite lookup_insert_ne by discriminate. apply lookup_insert_eq. }
  assert (Hx : cells maximalRuntime !! 0 = Some (predefinedCell 0 [])).
  { unfold maximalRuntime, allocated.
    cbn [cells level setCells setLevel bootRuntime].
    rewrite !lookup_insert_ne by discriminate. reflexivity. }
  exact (concat_total (H := sampleLimits) maximalRuntime 0 65537
           (predefinedCell 0 []) maximalSample Hwf Hx Hy).
Defined.

Lemma take_drop_nested (cs : list CodeUnit) (a n b m : nat) :
  (b + m <= n)%nat ->
  take m (drop b (take n (drop a cs))) = take m (drop (a + b) cs).
Proof.
  intros Hle. apply list_eq. intros i.
  destruct (decide (i < m)%nat) as [Hi|Hi].
  - rewrite !lookup_take_lt by lia. rewrite !lookup_drop.
    rewrite lookup_take_lt by lia. rewrite lookup_drop.
    f_equal. lia.
  - rewrite !lookup_take_ge by lia. reflexivity.
Qed.

(** X5.  Slicing a concatenation at the seam gives back the operands:
    when the lengths of [x] and [y] sum within the limit, the window
    [0, x.length) of [concat x y] holds the code units of [x], the window
    of length [y.length] behind it those of [y], and [equals] finds each
    slice equal to its operand. *)
Theorem slice_of_concat `{StringLimits} (rt : Runtime) (x y : Addr)
    (sx sy : StringPrimitive) :
  heapWf rt -> cells rt !! x = Some sx -> cells rt !! y = Some sy ->
  getStringLength sx + getStringLength sy <= MAX_STRING_LENGTH ->
  getStringLength sx + getStringLength sy <= UINT32_MAX ->
  exists p rt1 q1 rt2 c1 q2 rt3 c2,
    concat x y rt = Some (Returned (encodeStringValue p), rt1)
    /\ slice p 0 (getStringLength sx) rt1
       = Some (Returned (encodeStringValue q1), rt2)
    /\ slice p (getStringLength sx) (getStringLength sy) rt2
       = Some (Returned (encodeStringValue q2), rt3)
    /\ cells rt3 !! q1 = Some c1 /\ contents c1 = contents sx
    /\ cells rt3 !! q2 = Some c2 /\ contents c2 = contents sy
    /\ equals rt3 q1 x = Some true /\ equals rt3 q2 y = Some true.
Proof.
  intros Hwf Hx Hy Hmax H32.
  destruct (concat_effect rt x y sx sy Hwf Hx Hy Hmax H32)
    as (p & rt1 & c & Hcat & Hwf1 & Hext1 & Hp & Hc).
  assert (Hlen : getStringLength c = getStringLength sx + getStringLength sy).
  { unfold getStringLength. rewrite Hc, length_app. lia. }
  set (c1 := sliceCell c 0 (getStringLength sx)).
  set (rt2 := allocated rt1 c1).
  set (c2 := sliceCell c (getStringLength sx) (getStringLength sy)).
  set (rt3 := allocated rt2 c2).
  assert (Hwf2 : heapWf rt2) by apply heapWf_allocated, Hwf1.
  assert (Hp2 : cells rt2 !! p = Some c)
    by (apply allocated_lookup_old; assumption).
  exists p, rt1, (level rt1), rt2, c1, (level rt2), rt3, c2.
  split; [exact Hcat|].
  split; [apply slice_run; try assumption; lia|].
  split; [apply slice_run; try assumption; lia|].
  assert (Hq1 : cells rt3 !! level rt1 = Some c1).
  { apply allocated_lookup_old; [exact Hwf2|]. apply allocated_lookup_new. }
  assert (Hq2 : cells rt3 !! level rt2 = Some c2)
    by apply allocated_lookup_new.
  assert (Hc1 : contents c1 = contents sx).
  { unfold c1, sliceCell, getStringLength. cbn [contents]. rewrite Hc.
    change (N.to_nat 0) with 0%nat. rewrite drop_0.
    rewrite Nat2N.id. apply take_app_length. }
  assert (Hc2 : contents c2 = contents sy).
  { unfold c2, sliceCell, getStringLength. cbn [contents]. rewrite Hc.
    rewrite !Nat2N.id. rewrite drop_app_length. apply take_ge. lia. }
  assert (Hx3 : cells rt3 !! x = Some sx).
  { apply allocated_lookup_old; [exact Hwf2|].
    apply allocated_lookup_old; [exact Hwf1|]. apply Hext1, Hx. }
  assert (Hy3 : cells rt3 !! y = Some sy).
  { apply allocated_lookup_old; [exact Hwf2|].
    apply allocated_lookup_old; [exact Hwf1|]. apply Hext1, Hy. }
  split; [exact Hq1|]. split; [exact Hc1|].
  split; [exact Hq2|]. split; [exact Hc2|].
  split.
  - rewrite (equals_contents _ _ _ _ _ Hq1 Hx3).
    rewrite bool_decide_eq_true_2 by exact Hc1. reflexivity.
  - rewrite (equals_contents _ _ _ _ _ Hq2 Hy3).
    rewrite bool_decide_eq_true_2 by exact Hc2. reflexivity.
Qed.

Lemma slice_of_concat_witness :
  exists p rt1 q1 rt2 c1 q2 rt3 c2,
    concat (H := sampleLimits) 65537 65538 sampleRuntime
    = Some (Returned (encodeStringValue p), rt1)
    /\ slice (H := sampleLimits) p 0 (getStringLength wideSample) rt1
       = Some (Returned (encodeStringValue q1), rt2)
    /\ slice (H := sampleLimits) p (getStringLength wideSample)
         (getStringLength narrowSample) rt2
       = Some (Returned (encodeStringValue q2), rt3)
    /\ cells rt3 !! q1 = Some c1 /\ contents c1 = contents wideSample
    /\ cells rt3 !! q2 = Some c2 /\ contents c2 = contents narrowSample
    /\ equals rt3 q1 65537 = Some true /\ equals rt3 q2 65538 = Some true.
Proof.
  assert (Hwf : heapWf sampleRuntime)
    by (apply heapWf_decide; vm_compute; reflexivity).
  assert (Hx : cells sampleRuntime !! 65537 = Some wideSample)
    by (vm_compute; reflexivity).
  assert (Hy : cells sampleRuntime !! 65538 = Some narrowSample)
    by (vm_compute; reflexivity).
  refine (slice_of_concat (H := sampleLimits) sampleRuntime 65537 65538
            wideSample narrowSample Hwf Hx Hy _ _).
  - vm_compute. discriminate.
  - vm_compute. discriminate.
Defined.

(** X6.  Concatenation is associative on contents: when the three lengths
    sum within the limit, [concat (concat x y) z] and
    [concat x (concat y z)] hold the same code units; [equals] finds them
    equal and [compare] returns zero. *)
Theorem concat_associative `{StringLimits} (rt : Runtime) (x y z : Addr)
    (sx sy sz : StringPrimitive) :
  heapWf rt ->
  cells rt !! x = Some sx -> cells rt !! y = Some sy ->
  cells rt !! z = Some sz ->
  getStringLength sx + getStringLength sy + getStringLength sz
  <= MAX_STRING_LENGTH ->
  getStringLength sx + getStringLength sy + getStringLength sz
  <= UINT32_MAX ->
  exists xy rt1 xyz rt2 yz rt3 xyz' rt4,
    concat x y rt = Some (Returned (encodeStringValue xy), rt1)
    /\ concat xy z rt1 = Some (Returned (encodeStringValue xyz), rt2)
    /\ concat y z rt2 = Some (Returned (encodeStringValue yz), rt3)
    /\ concat x yz rt3 = Some (Returned (encodeStringValue xyz'), rt4)
    /\ equals rt4 xyz xyz' = Some true
    /\ compare rt4 xyz xyz' = Some 0%Z.
Proof.
  intros Hwf Hx Hy Hz Hmax H32.
  destruct (concat_effect rt x y sx sy Hwf Hx Hy) as
    (xy & rt1 & c1 & Hcat1 & Hwf1 & Hext1 & Hxy & Hc1); [lia | lia |].
  assert (Hl1 : getStringLength c1 = getStringLength sx + getStringLength sy).
  { unfold getStringLength. rewrite Hc1, length_app. lia. }
  destruct (concat_effect rt1 xy z c1 sz Hwf1 Hxy (Hext1 _ _ Hz)) as
    (xyz & rt2 & c2 & Hcat2 & Hwf2 & Hext2 & Hxyz & Hc2); [lia | lia |].
  destruct (concat_effect rt2 y z sy sz Hwf2
              (Hext2 _ _ (Hext1 _ _ Hy)) (Hext2 _ _ (Hext1 _ _ Hz))) as
    (yz & rt3 & c3 & Hcat3 & Hwf3 & Hext3 & Hyz & Hc3); [lia | lia |].
  assert (Hl3 : getStringLength c3 = getStringLength sy + getStringLength sz).
  { unfold getStringLength. rewrite Hc3, length_app. lia. }
  destruct (concat_effect rt3 x yz sx c3 Hwf3
              (Hext3 _ _ (Hext2 _ _ (Hext1 _ _ Hx))) Hyz) as
    (xyz' & rt4 & c4 & Hcat4 & Hwf4 & Hext4 & Hxyz' & Hc4); [lia | lia |].
  exists xy, rt1, xyz, rt2, yz, rt3, xyz', rt4.
  repeat (split; [assumption|]).
  assert (Heq : contents c2 = contents c4).
  { rewrite Hc2, Hc4, Hc1, Hc3. symmetry. apply app_assoc. }
  pose proof (Hext4 _ _ (Hext3 _ _ Hxyz)) as Hxyz4.
  split.
  - rewrite (equals_contents _ _ _ _ _ Hxyz4 Hxyz').
    rewrite bool_decide_eq_true_2 by exact Heq. reflexivity.
  - rewrite (compare_contents _ _ _ _ _ Hxyz4 Hxyz'). f_equal.
    apply stringRefCompare_zero. exact Heq.
Qed.

Lemma concat_associative_witness :
  exists xy rt1 xyz rt2 yz rt3 xyz' rt4,
    concat (H := sampleLimits) 65537 65538 sampleRuntime
    = Some (Returned (encodeStringValue xy), rt1)
    /\ concat (H := sampleLimits) xy 98 rt1
       = Some (Returned (encodeStringValue xyz), rt2)
    /\ concat (H := sampleLimits) 65538 98 rt2
       = Some (Returned (encodeStringValue yz), rt3)
    /\ concat (H := sampleLimits) 65537 yz rt3
       = Some (Returned (encodeStringValue xyz'), rt4)
    /\ equals rt4 xyz xyz' = Some true
    /\ compare rt4 xyz xyz' = Some 0%Z.
Proof.
  assert (Hwf : heapWf sampleRuntime)
    by (apply heapWf_decide; vm_compute; reflexivity).
  assert (Hx : cells sampleRuntime !! 65537 = Some wideSample)
    by (vm_compute; reflexivity).
  assert (Hy : cells sampleRuntime !! 65538 = Some narrowSample)
    by (vm_compute; reflexivity).
  assert (Hz : cells sampleRuntime !! 98 = Some (predefinedCell 98 [97]))
    by (vm_compute; reflexivity).
  refine (concat_associative (H := sampleLimits) sampleRuntime 65537 65538 98
            wideSample narrowSample (predefinedCell 98 [97])
            Hwf Hx Hy Hz _ _).
  - vm_compute. discriminate.
  - vm_compute. discriminate.
Defined.

(** X7.  A slice of a slice is a slice of the parent: for a window
    [a, a + n) of [s] and a window [b, b + m) of that slice, the second
    slice holds the code units of the window [a + b, a + b + m) of [s]
    and keeps the encoding of [s]. *)
Theorem slice_of_slice `{StringLimits} (rt : Runtime) (str : Addr)
    (s : StringPrimitive) (a n b m : N) :
  heapWf rt -> cells rt !! str = Some s -> stringWf s ->
  a + n <= getStringLength s -> b + m <= n ->
  exists p rt1 q rt2 cq,
    slice str a n rt = Some (Returned (encodeStringValue p), rt1)
    /\ slice p b m rt1 = Some (Returned (encodeStringValue q), rt2)
    /\ cells rt2 !! q = Some cq
    /\ sliceEquals s (a + b) m cq = Some true
    /\ isASCII cq = isASCII s.
Proof.
  intros Hwf Hs [Hmax H32] Han Hbm.
  set (c1 := sliceCell s a n).
  set (rt1 := allocated rt c1).
  set (cq := sliceCell c1 b m).
  assert (Hl1 : getStringLength c1 = n).
  { unfold c1, getStringLength, sliceCell in *. cbn [contents].
    rewrite length_take, length_drop. lia. }
  exists (level rt), rt1, (level rt1), (allocated rt1 cq), cq.
  split; [apply slice_run; try assumption; lia|].
  split.
  { apply slice_run.
    - apply heapWf_allocated, Hwf.
    - apply allocated_lookup_new.
    - rewrite Hl1. exact Hbm.
    - lia.
    - lia. }
  split; [apply allocated_lookup_new|].
  split.
  - rewrite sliceEquals_run by lia.
    rewrite bool_decide_eq_true_2; [reflexivity|].
    unfold cq, c1, sliceCell. cbn [contents].
    rewrite take_drop_nested by lia. f_equal. f_equal. lia.
  - unfold cq, c1, sliceCell, isASCII. cbn [cellKind].
    destruct (kindIsASCII (cellKind s)); reflexivity.
Qed.

Lemma slice_of_slice_witness :
  exists p rt1 q rt2 cq,
    slice (H := sampleLimits) 65537 4 7 helloRuntime
    = Some (Returned (encodeStringValue p), rt1)
    /\ slice (H := sampleLimits) p 2 5 rt1
       = Some (Returned (encodeStringValue q), rt2)
    /\ cells rt2 !! q = Some cq
    /\ sliceEquals helloSample (4 + 2) 5 cq = Some true
    /\ isASCII cq = isASCII helloSample.
Proof.
  assert (Hwf : heapWf helloRuntime)
    by (apply heapWf_decide; vm_compute; reflexivity).
  assert (Hs : cells helloRuntime !! 65537 = Some helloSample)
    by (vm_compute; reflexivity).
  assert (Hswf : stringWf (H := sampleLimits) helloSample)
    by (split; vm_compute; discriminate).
  refine (slice_of_slice (H := sampleLimits) helloRuntime 65537 helloSample
            4 7 2 5 Hwf Hs Hswf _ _).
  - vm_compute. discriminate.
  - vm_compute. discriminate.
Defined.

(** ** Bulk copy *)

Lemma copyUTF16String_run (c : StringPrimitive) (v : list CodeUnit) :
  copyUTF16String c v = Some (v ++ contents c).
Proof.
  unfold copyUTF16String, castToASCIIRefAt, castToUTF16RefAt,
    getStringLength.
  destruct (isASCII c); rewrite window_all; reflexivity.
Qed.

Lemma copyUTF16StringTo_run (c : StringPrimitive) (buffer : list CodeUnit)
    (ptr : N) :
  copyUTF16StringTo c buffer ptr = copyInto buffer ptr (contents c).
Proof.
  unfold copyUTF16StringTo, castToASCIIRefAt, castToUTF16RefAt,
    getStringLength.
  destruct (isASCII c); rewrite window_all; reflexivity.
Qed.

(** X8.  Round trip: for any source span of valid length, with or without
    its owned buffer, the string returned by [createEfficient] has the
    length of the span, and both overloads of [copyUTF16String] reproduce
    the span exactly: appended to the vector, or written at the
    destination pointer.  For spans of fewer than two units this relies
    on the predefined string holding the span. *)
Theorem createEfficient_copy_roundtrip `{StringLimits} (rt : Runtime)
    (T : CharT) (str : list CodeUnit) (optStorage : option (list CodeUnit)) :
  optStorage = None \/ optStorage = Some str ->
  (T = char -> isAllASCII str = true) ->
  size str <= MAX_STRING_LENGTH -> size str <= UINT32_MAX ->
  predefinedHolds rt str ->
  exists p rt' c,
    createEfficientImpl T str optStorage rt
    = Some (Returned (encodeStringValue p), rt')
    /\ cells rt' !! p = Some c
    /\ getStringLength c = size str
    /\ (forall v, copyUTF16String c v = Some (v ++ str))
    /\ (forall buffer ptr,
          copyUTF16StringTo c buffer ptr = copyInto buffer ptr str)
    /\ copyUTF16StringTo c (repeat 0 (length str)) 0 = Some str.
Proof.
  intros Hopt Hascii Hmax H32 Hpre.
  assert (Hcopy : forall c : StringPrimitive, contents c = str ->
            getStringLength c = size str
            /\ (forall v, copyUTF16String c v = Some (v ++ str))
            /\ (forall buffer ptr,
                  copyUTF16StringTo c buffer ptr = copyInto buffer ptr str)
            /\ copyUTF16StringTo c (repeat 0 (length str)) 0 = Some str).
  { intros c Hc. split; [unfold getStringLength; rewrite Hc; reflexivity|].
    split; [intros v; rewrite copyUTF16String_run, Hc; reflexivity|].
    split; [intros b q; rewrite copyUTF16StringTo_run, Hc; reflexivity|].
    rewrite copyUTF16StringTo_run, Hc. apply copyInto_whole.
    unfold size. rewrite repeat_length. reflexivity. }
  destruct str as [|a [|b l]] eqn:Estr.
  - destruct Hpre as (s & Hs & Hc).
    exists (emptyString rt), rt, s.
    split; [apply createEfficientImpl_empty; exact Hopt|].
    split; [exact Hs|]. apply Hcopy, Hc.
  - destruct Hpre as (s & Hs & Hc).
    exists (charStrings rt a), rt, s.
    split; [apply createEfficientImpl_single; assumption|].
    split; [exact Hs|]. apply Hcopy, Hc.
  - rewrite <- Estr in *.
    assert (Hlen : 1 < size str)
      by (rewrite Estr; unfold size; simpl; lia).
    destruct (adoptsStorage str optStorage) eqn:Ead.
    + unfold adoptsStorage in Ead.
      destruct Hopt as [-> | ->]; [discriminate|].
      apply N.leb_le in Ead.
      eexists _, _, _. split.
      { rewrite (createEfficientImpl_adopt rt T str Hlen Hascii Ead).
        apply ExternalStringPrimitive_create_run. exact Hmax. }
      split; [apply allocated_lookup_new|].
      apply Hcopy. reflexivity.
    + eexists _, _, _. split.
      { apply createEfficientImpl_inline; assumption. }
      split; [apply allocated_lookup_new|].
      apply Hcopy. reflexivity.
Qed.

Lemma createEfficient_copy_roundtrip_witness :
  exists p rt' c,
    createEfficientImpl (H := sampleLimits) char16_t [104] None bootRuntime
    = Some (Returned (encodeStringValue p), rt')
    /\ cells rt' !! p = Some c
    /\ getStringLength c = size [104]
    /\ (forall v, copyUTF16String c v = Some (v ++ [104]))
    /\ (forall buffer ptr,
          copyUTF16StringTo c buffer ptr = copyInto buffer ptr [104])
    /\ copyUTF16StringTo c (repeat 0 (length [104])) 0 = Some [104].
Proof.
  refine (createEfficient_copy_roundtrip (H := sampleLimits) bootRuntime
            char16_t [104] None _ _ _ _ _).
  - left. reflexivity.
  - discriminate.
  - vm_compute. discriminate.
  - vm_compute. discriminate.
  - exists (predefinedCell 105 [104]). split; [vm_compute|]; reflexivity.
Defined.

(** ** The overloads of [createEfficient] *)

(** X9.  On text that is entirely ASCII the unit type of the source does
    not matter when no buffer is passed: [createEfficient] of a 16-bit
    span returns the same value and leaves the same runtime as
    [createEfficient] of the 8-bit span with the same units. *)
Theorem createEfficient_ascii_source_irrelevant `{StringLimits}
    (rt : Runtime) (str : list CodeUnit) :
  isAllASCII str = true ->
  createEfficientUTF16Ref str rt = createEfficientASCIIRef str rt.
Proof.
  intros Hascii.
  unfold createEfficientUTF16Ref, createEfficientASCIIRef,
    createEfficientImpl.
  cbn [charIs8Bit negb orb]. rewrite Hascii. reflexivity.
Qed.

Lemma createEfficient_ascii_source_irrelevant_witness :
  createEfficientUTF16Ref (H := sampleLimits) [104; 105] bootRuntime
  = createEfficientASCIIRef (H := sampleLimits) [104; 105] bootRuntime.
Proof.
  exact (createEfficient_ascii_source_irrelevant (H := sampleLimits)
           bootRuntime [104; 105] eq_refl).
Defined.

(** X10.  An owned buffer shorter than [EXTERNAL_STRING_MIN_SIZE] is not
    adopted: [createEfficient] with the buffer returns the same value and
    leaves the same runtime as [createEfficient] of the span alone, for
    either unit type.  The same holds for spans of fewer than two code
    units, whatever the threshold. *)
Theorem createEfficient_short_buffer_copied `{StringLimits} (rt : Runtime)
    (T : CharT) (str : list CodeUnit) :
  size str < EXTERNAL_STRING_MIN_SIZE \/ size str <= 1 ->
  createEfficientImpl T str (Some str) rt
  = createEfficientImpl T str None rt.
Proof.
  intros Hshort. unfold createEfficientImpl.
  rewrite bool_decide_eq_true_2 by reflexivity.
  destruct str as [|a [|b l]]; [reflexivity | reflexivity |].
  destruct Hshort as [Hshort|Hshort];
    [|unfold size in Hshort; simpl in Hshort; lia].
  apply N.leb_gt in Hshort. rewrite Hshort. reflexivity.
Qed.

Lemma createEfficient_short_buffer_copied_witness :
  createEfficientImpl (H := sampleLimits) char16_t [104; 105; 1000]
    (Some [104; 105; 1000]) bootRuntime
  = createEfficientImpl (H := sampleLimits) char16_t [104; 105; 1000] None
      bootRuntime.
Proof.
  refine (createEfficient_short_buffer_copied (H := sampleLimits) bootRuntime
            char16_t [104; 105; 1000] _).
  left. vm_compute. reflexivity.
Defined.

(** X11.  Storage and encoding do not show in comparisons: for ASCII text
    long enough to be adopted, the wide external string made from an owned
    16-bit buffer and the narrow inline string made afterwards from the
    8-bit span are two instances, differently stored and encoded, that
    [equals] finds equal and [compare] orders as equal. *)
Theorem createEfficient_representations_equal `{StringLimits} (rt : Runtime)
    (str : list CodeUnit) :
  isAllASCII str = true ->
  EXTERNAL_STRING_MIN_SIZE <= size str -> 1 < size str ->
  size str <= MAX_STRING_LENGTH -> size str <= UINT32_MAX ->
  exists p rt1 q rt2 cp cq,
    createEfficientU16String str rt
    = Some (Returned (encodeStringValue p), rt1)
    /\ createEfficientASCIIRef str rt1
       = Some (Returned (encodeStringValue q), rt2)
    /\ cells rt2 !! p = Some cp /\ cells rt2 !! q = Some cq
    /\ p <> q
    /\ isExternal cp = true /\ isASCII cp = false
    /\ isExternal cq = false /\ isASCII cq = true
    /\ equals rt2 p q = Some true
    /\ compare rt2 p q = Some 0%Z.
Proof.
  intros Hascii Hmin Hlen Hmax H32.
  set (cp := externalCell char16_t str).
  set (rt1 := credited (allocated rt cp)
                (ExternalStringPrimitive.allocSize char16_t (size str))).
  set (cq := inlineCell (charIs8Bit char || isAllASCII str) str).
  exists (level rt), rt1, (level rt1), (allocated rt1 cq), cp, cq.
  assert (Hp : cells (allocated rt1 cq) !! level rt = Some cp).
  { unfold allocated at 1. cbn [cells setCells].
    rewrite lookup_insert_ne.
    - apply allocated_lookup_new.
    - unfold rt1, credited, allocated.
      cbn [level setLedger setCells setLevel]. unfold Addr. lia. }
  assert (Hq : cells (allocated rt1 cq) !! level rt1 = Some cq)
    by apply allocated_lookup_new.
  split.
  { unfold createEfficientU16String.
    rewrite (createEfficientImpl_adopt rt char16_t str Hlen
               (fun _ => Hascii) Hmin).
    apply ExternalStringPrimitive_create_run. exact Hmax. }
  split.
  { unfold createEfficientASCIIRef.
    apply createEfficientImpl_inline; auto. }
  split; [exact Hp|]. split; [exact Hq|].
  split.
  { unfold rt1, credited, allocated.
    cbn [level setLedger setCells setLevel]. unfold Addr. lia. }
  repeat (split; [reflexivity|]).
  split.
  - rewrite (equals_contents _ _ _ _ _ Hp Hq).
    rewrite bool_decide_eq_true_2 by reflexivity. reflexivity.
  - rewrite (compare_contents _ _ _ _ _ Hp Hq). f_equal.
    apply stringRefCompare_zero. reflexivity.
Qed.

Lemma createEfficient_representations_equal_witness :
  exists p rt1 q rt2 cp cq,
    createEfficientU16String (H := sampleLimits) asciiBuffer bootRuntime
    = Some (Returned (encodeStringValue p), rt1)
    /\ createEfficientASCIIRef (H := sampleLimits) asciiBuffer rt1
       = Some (Returned (encodeStringValue q), rt2)
    /\ cells rt2 !! p = Some cp /\ cells rt2 !! q = Some cq
    /\ p <> q
    /\ isExternal cp = true /\ isASCII cp = false
    /\ isExternal cq = false /\ isASCII cq = true
    /\ equals rt2 p q = Some true
    /\ compare rt2 p q = Some 0%Z.
Proof.
  refine (createEfficient_representations_equal (H := sampleLimits)
            bootRuntime asciiBuffer _ _ _ _ _).
  - vm_compute. reflexivity.
  - vm_compute. discriminate.
  - vm_compute. reflexivity.
  - vm_compute. discriminate.
  - vm_compute. discriminate.
Defined.

(** ** Inline construction from a span *)

(** X12.  [DynamicStringPrimitive::create] and [createLongLived] of a
    span whose length is not an external length place a new cell at the
    allocation pointer that holds exactly the code units of the span, of
    the requested unit type and uniqued flag, with no identifier and no
    finalizer.  The two differ only in the pool of the cell.  Neither
    checks [MAX_STRING_LENGTH] and neither raises. *)
Theorem DynamicStringPrimitive_create_of_span `{StringLimits}
    (rt : Runtime) (T : CharT) (Uniqued : bool) (str : list CodeUnit) :
  isExternalLength (size str) = false -> size str <= UINT32_MAX ->
  DynamicStringPrimitive.createOfRef T Uniqued str rt
  = Some (Returned (encodeStringValue (level rt)),
          allocated rt (dynamicCell T Uniqued false str))
  /\ DynamicStringPrimitive.createLongLived T Uniqued str rt
     = Some (Returned (encodeStringValue (level rt)),
             allocated rt (dynamicCell T Uniqued true str))
  /\ forall v, copyUTF16String (dynamicCell T Uniqued false str) v
               = Some (v ++ str).
Proof.
  intros Hext H32.
  assert (Hnew : forall ll : bool,
            DynamicStringPrimitive.newOfRef T Uniqued str ll false
            = Some (dynamicCell T Uniqued ll str)).
  { intros ll. unfold DynamicStringPrimitive.newOfRef.
    rewrite (toUInt32_small _ H32).
    cbn [contents DynamicStringPrimitive.newOfLength].
    rewrite copyInto_whole by (symmetry; apply size_repeat).
    reflexivity. }
  split; [|split].
  - unfold DynamicStringPrimitive.createOfRef, bind, assert, alloc,
      DynamicStringPrimitive.placementNewOpt.
    rewrite Hext. cbn [negb memLongLived memHasFinalizer memAddr].
    rewrite Hnew. reflexivity.
  - unfold DynamicStringPrimitive.createLongLived, bind, assert,
      allocLongLived, DynamicStringPrimitive.placementNewOpt.
    rewrite Hext. cbn [negb memLongLived memHasFinalizer memAddr].
    rewrite Hnew. reflexivity.
  - intros v. apply copyUTF16String_run.
Qed.

Lemma DynamicStringPrimitive_create_of_span_witness :
  DynamicStringPrimitive.createOfRef (H := sampleLimits) char16_t true
    [104; 105; 1000] bootRuntime
  = Some (Returned (encodeStringValue (level bootRuntime)),
          allocated bootRuntime (dynamicCell char16_t true false
                                   [104; 105; 1000]))
  /\ DynamicStringPrimitive.createLongLived (H := sampleLimits) char16_t true
       [104; 105; 1000] bootRuntime
     = Some (Returned (encodeStringValue (level bootRuntime)),
             allocated bootRuntime (dynamicCell char16_t true true
                                      [104; 105; 1000]))
  /\ forall v, copyUTF16String (dynamicCell char16_t true false
                                  [104; 105; 1000]) v
               = Some (v ++ [104; 105; 1000]).
Proof.
  refine (DynamicStringPrimitive_create_of_span (H := sampleLimits)
            bootRuntime char16_t true [104; 105; 1000] _ _).
  - reflexivity.
  - vm_compute. discriminate.
Defined.

(** ** External strings and the memory they report *)

Section MallocSize.
Context `{StringLimits}.

Lemma mallocSizeImpl_run (rt : Runtime) (T : CharT) (p : Addr)
    (c : StringPrimitive) :
  cells rt !! p = Some c -> cellKind c = ExternalKind T ->
  ExternalStringPrimitive._mallocSizeImpl T p rt
  = Some (Returned (size (contents c) * sizeofT T), rt).
Proof.
  intros Hp Hk.
  unfold ExternalStringPrimitive._mallocSizeImpl,
    ExternalStringPrimitive.vmcast, bind, deref.
  rewrite Hp. destruct (decide (cellKind c = ExternalKind T)) as [_|Hne];
    [reflexivity | contradiction].
Qed.
End MallocSize.

(** X13.  The bytes an external string reports to the collector through
    [_mallocSizeImpl] are the bytes credited to the ledger when it was
    constructed, the length of the buffer times the size of a code unit.
    This holds for [create] of a buffer, which never consults the budget
    of the heap, and for [createLongLived] whenever the heap admits the
    size; the string made by [createLongLived] is then uniqued, carries
    the identifier passed, lies in the long-lived pool and holds the
    buffer.  When the heap rejects the size, [createLongLived] raises the
    range error and allocates nothing. *)
Theorem mallocSize_is_credit `{StringLimits} (rt : Runtime) (T : CharT)
    (str : list CodeUnit) (uniqueID : SymbolID) :
  limitsFit -> size str <= MAX_STRING_LENGTH ->
  (exists rt' c,
     ExternalStringPrimitive.create T str rt
     = Some (Returned (encodeStringValue (level rt)), rt')
     /\ externalCredited rt' = externalCredited rt + size str * sizeofT T
     /\ ExternalStringPrimitive._mallocSizeImpl T (level rt) rt'
        = Some (Returned (size str * sizeofT T), rt')
     /\ cells rt' !! level rt = Some c
     /\ isUniqued c = false /\ uniqueID_ c = None
     /\ longLived c = false /\ contents c = str)
  /\ (if heapCanAllocExternalMemory rt
           (ExternalStringPrimitive.allocSize T (size str))
      then
        exists rt' c,
          ExternalStringPrimitive.createLongLived T str uniqueID rt
          = Some (Returned (encodeStringValue (level rt)), rt')
          /\ externalCredited rt'
             = externalCredited rt + size str * sizeofT T
          /\ ExternalStringPrimitive._mallocSizeImpl T (level rt) rt'
             = Some (Returned (size str * sizeofT T), rt')
          /\ cells rt' !! level rt = Some c
          /\ isUniqued c = true /\ uniqueID_ c = Some uniqueID
          /\ longLived c = true /\ contents c = str
      else
        ExternalStringPrimitive.createLongLived T str uniqueID rt
        = Some (EXCEPTION,
                raised rt "Cannot allocate an external string primitive.")).
Proof.
  intros Hfit Hmax.
  pose proof (allocSize_exact T (size str) Hfit Hmax) as Hsz.
  assert (Hnot : (MAX_STRING_LENGTH <? size str) = false)
    by (apply N.ltb_ge; exact Hmax).
  split.
  - eexists _, _. split; [apply ExternalStringPrimitive_create_run, Hmax|].
    split.
    { unfold credited.
      cbn [externalCredited setLedger allocated setCells setLevel].
      rewrite Hsz. reflexivity. }
    split.
    { apply (mallocSizeImpl_run _ T _ (externalCell T str));
        [apply allocated_lookup_new | reflexivity]. }
    split; [apply allocated_lookup_new|]. repeat split.
  - rewrite ExternalStringPrimitive_createLongLived_run, Hnot.
    destruct (heapCanAllocExternalMemory rt
                (ExternalStringPrimitive.allocSize T (size str)));
      [|reflexivity].
    eexists _, _. split; [reflexivity|].
    split.
    { unfold credited.
      cbn [externalCredited setLedger allocated setCells setLevel].
      rewrite Hsz. reflexivity. }
    split.
    { apply (mallocSizeImpl_run _ T _
               (ExternalStringPrimitive.newUniqued T str uniqueID true true));
        [apply allocated_lookup_new | reflexivity]. }
    split; [apply allocated_lookup_new|]. repeat split.
Qed.

Lemma mallocSize_is_credit_witness :
  (exists rt' c,
     ExternalStringPrimitive.create (H := sampleLimits) char16_t [104; 105]
       bootRuntime
     = Some (Returned (encodeStringValue (level bootRuntime)), rt')
     /\ externalCredited rt'
        = externalCredited bootRuntime + size [104; 105] * sizeofT char16_t
     /\ ExternalStringPrimitive._mallocSizeImpl char16_t (level bootRuntime)
          rt'
        = Some (Returned (size [104; 105] * sizeofT char16_t), rt')
     /\ cells rt' !! level bootRuntime = Some c
     /\ isUniqued c = false /\ uniqueID_ c = None
     /\ longLived c = false /\ contents c = [104; 105])
  /\ (exists rt' c,
        ExternalStringPrimitive.createLongLived (H := sampleLimits) char16_t
          [104; 105] 7 bootRuntime
        = Some (Returned (encodeStringValue (level bootRuntime)), rt')
        /\ externalCredited rt'
           = externalCredited bootRuntime
             + size [104; 105] * sizeofT char16_t
        /\ ExternalStringPrimitive._mallocSizeImpl char16_t
             (level bootRuntime) rt'
           = Some (Returned (size [104; 105] * sizeofT char16_t), rt')
        /\ cells rt' !! level bootRuntime = Some c
        /\ isUniqued c = true /\ uniqueID_ c = Some 7
        /\ longLived c = true /\ contents c = [104; 105]).
Proof.
  refine (mallocSize_is_credit (H := sampleLimits) bootRuntime char16_t
            [104; 105] 7 _ _).
  - vm_compute. discriminate.
  - vm_compute. discriminate.
Defined.

(** ** Equality and order across operations *)

(** X14.  [equals] is an equivalence on live strings, whatever their
    encodings and storage: every string equals itself, the result does not
    depend on which operand is the receiver, and two strings equal to a
    third are equal. *)
Theorem equals_equivalence (rt : Runtime) (a b c : Addr)
    (sa sb sc : StringPrimitive) :
  cells rt !! a = Some sa -> cells rt !! b = Some sb ->
  cells rt !! c = Some sc ->
  equals rt a a = Some true
  /\ equals rt a b = equals rt b a
  /\ exists ab bc ac,
       equals rt a b = Some ab /\ equals rt b c = Some bc
       /\ equals rt a c = Some ac
       /\ (ab && bc = true -> ac = true).
Proof.
  intros Ha Hb Hc.
  rewrite (equals_contents rt a a sa sa Ha Ha),
    (equals_contents rt a b sa sb Ha Hb),
    (equals_contents rt b a sb sa Hb Ha).
  split; [rewrite bool_decide_eq_true_2 by reflexivity; reflexivity|].
  split.
  { f_equal. apply bool_decide_ext. split; intros E; symmetry; exact E. }
  eexists _, _, _. split; [reflexivity|].
  split; [apply (equals_contents rt b c sb sc Hb Hc)|].
  split; [apply (equals_contents rt a c sa sc Ha Hc)|].
  rewrite andb_true_iff, !bool_decide_eq_true. intros [-> ->]. reflexivity.
Qed.

Lemma equals_equivalence_witness :
  equals cafeRuntime 65537 65537 = Some true
  /\ equals cafeRuntime 65537 65538 = equals cafeRuntime 65538 65537
  /\ exists ab bc ac,
       equals cafeRuntime 65537 65538 = Some ab
       /\ equals cafeRuntime 65538 0 = Some bc
       /\ equals cafeRuntime 65537 0 = Some ac
       /\ (ab && bc = true -> ac = true).
Proof.
  refine (equals_equivalence cafeRuntime 65537 65538 0
            cafeNarrow cafeWide (predefinedCell 0 []) _ _ _).
  - vm_compute. reflexivity.
  - vm_compute. reflexivity.
  - vm_compute. reflexivity.
Defined.




